(** * crawl: markup sanitizer, link extractor, page fetcher, analysis client

    A shallow embedding of [app.py] and [model_wrapper.py].

    - Python [str] values are [string]s; a character is an [ascii], read as a
      code point below 256.
    - The BeautifulSoup parse tree is the inductive type [node]; a soup is the
      list of its top-level nodes.  [find_all], [decompose], [get] and the
      assignment to [attrs] are functions on that tree.
    - The browser, the UI error sink and the generative model are external
      collaborators.  The code that drives them runs in a small state and
      exception monad over an instrumented state. *)

From Stdlib Require Import Ascii String ZArith QArith Lia.
From stdpp Require Import base option list strings gmap.

Local Open Scope string_scope.
Local Open Scope list_scope.

(** ** The parse tree *)

(** bs4 represents text, comments, declarations and the like as
    [NavigableString] and its subclasses. *)
Inductive string_kind : Type :=
| PlainText | Comment | CData | ProcessingInstruction | Declaration | Doctype.

(** [Tag.attrs] is a dict in insertion order; the order is the one in which
    the attributes are printed. *)
Definition attrs_t : Type := list (string * string).

#[local] Unset Elimination Schemes.
Inductive node : Type :=
| Tag (name : string) (attrs : attrs_t) (contents : list node)
| NavigableString (kind : string_kind) (text : string).
#[local] Set Elimination Schemes.

Definition soup_t : Type := list node.

(** Induction over the nested tree. *)
Section node_induction.
Variable P : node -> Prop.
Hypothesis P_tag : forall name attrs contents,
    Forall P contents -> P (Tag name attrs contents).
Hypothesis P_string : forall kind text, P (NavigableString kind text).

Fixpoint node_forall_ind (n : node) : P n :=
  match n with
  | Tag name attrs contents =>
      P_tag name attrs contents
        ((fix go (l : list node) : Forall P l :=
            match l with
            | [] => Forall_nil_2 P
            | x :: l' => Forall_cons_2 P x l' (node_forall_ind x) (go l')
            end) contents)
  | NavigableString kind text => P_string kind text
  end.
End node_induction.

(** [element.get(key)]: the value stored under [key], if any. *)
Fixpoint get (attrs : attrs_t) (key : string) : option string :=
  match attrs with
  | [] => None
  | (k, v) :: rest => if String.eqb k key then Some v else get rest key
  end.

(** Python truthiness of the result of [get]: [None] and the empty string
    are false. *)
Definition truthy (v : option string) : bool :=
  match v with
  | Some s => negb (String.eqb s "")
  | None => false
  end.

(** Membership of a tag name in a Python list of names. *)
Definition name_in (name : string) (names : list string) : bool :=
  existsb (String.eqb name) names.

Definition name_in_nat (n : nat) (ns : list nat) : bool :=
  existsb (Nat.eqb n) ns.

(** [soup.find_all(True)]: every [Tag] below the soup, in document order,
    given by its name and attributes. *)
Fixpoint find_all_node (n : node) : list (string * attrs_t) :=
  match n with
  | Tag name attrs contents => (name, attrs) :: flat_map find_all_node contents
  | NavigableString _ _ => []
  end.

Definition find_all (soup : soup_t) : list (string * attrs_t) :=
  flat_map find_all_node soup.

(** Every string below the soup, in document order. *)
Fixpoint strings_node (n : node) : list (string_kind * string) :=
  match n with
  | Tag _ _ contents => flat_map strings_node contents
  | NavigableString kind text => [(kind, text)]
  end.

Definition strings (soup : soup_t) : list (string_kind * string) :=
  flat_map strings_node soup.

(** ** clean_html, the tree passes (app.py 64-86) *)

Definition unwanted_tags : list string :=
  ["script"; "style"; "meta"; "footer"; "header";
   "nav"; "aside"; "form"; "iframe"; "noscript"].

(** [for element in soup.find_all(tag): element.decompose()].  [find_all]
    collects the matching elements before the loop starts; [decompose]
    detaches an element from its parent together with everything below it,
    and detaching an element that lies inside one already detached leaves the
    soup as it is.  What remains is the soup without any element of that
    name. *)
Fixpoint decompose_node (tag : string) (n : node) : list node :=
  match n with
  | Tag name attrs contents =>
      if String.eqb name tag then []
      else [Tag name attrs (flat_map (decompose_node tag) contents)]
  | NavigableString kind text => [NavigableString kind text]
  end.

Definition decompose_all (tag : string) (soup : soup_t) : soup_t :=
  flat_map (decompose_node tag) soup.

(** [for tag in unwanted_tags: ...] *)
Definition remove_unwanted (soup : soup_t) : soup_t :=
  fold_left (fun s tag => decompose_all tag s) unwanted_tags soup.

(** [{k: v for k, v in items if v}] *)
Definition dict_if_truthy (items : list (string * option string)) : attrs_t :=
  flat_map (fun kv => match snd kv with
                      | Some v => if truthy (Some v) then [(fst kv, v)] else []
                      | None => []
                      end) items.

(** The body of the attribute loop (lines 77-86), branch for branch.  The
    outer test lets only elements other than [a] and [img] through, so the
    two inner branches for [a] and [img] are never taken. *)
Definition clean_element_attrs (name : string) (attrs : attrs_t) : attrs_t :=
  if negb (name_in name ["a"; "img"]) then
    if String.eqb name "a" then
      let href := get attrs "href" in
      if truthy href then dict_if_truthy [("href", href)] else []
    else if String.eqb name "img" then
      let src := get attrs "src" in
      let alt := get attrs "alt" in
      dict_if_truthy [("src", src); ("alt", alt)]
    else []
  else attrs.

(** [for element in soup.find_all(True): ...] *)
Fixpoint clean_attributes_node (n : node) : node :=
  match n with
  | Tag name attrs contents =>
      Tag name (clean_element_attrs name attrs) (map clean_attributes_node contents)
  | NavigableString kind text => NavigableString kind text
  end.

Definition clean_soup (clean_attributes : bool) (soup : soup_t) : soup_t :=
  let soup := remove_unwanted soup in
  if clean_attributes then map clean_attributes_node soup else soup.

(** ** clean_html, the line pass (app.py 88-91) *)

(** The line boundaries of [str.splitlines] below code point 256: LF, CR,
    VT, FF, FS, GS, RS and NEL. *)
Definition is_line_boundary (c : ascii) : bool :=
  name_in_nat (nat_of_ascii c) [10; 13; 11; 12; 28; 29; 30; 133].

(** The characters removed by [str.strip()] below code point 256, those for
    which [str.isspace] holds: TAB, LF, VT, FF, CR, FS, GS, RS, US, space,
    NEL and NBSP. *)
Definition is_space (c : ascii) : bool :=
  name_in_nat (nat_of_ascii c) [9; 10; 11; 12; 13; 28; 29; 30; 31; 32; 133; 160].

Definition CR : ascii := ascii_of_nat 13.
Definition LF : ascii := ascii_of_nat 10.

(** [str.splitlines()]: CR LF is one boundary, and no empty last line is
    produced when the text ends in a boundary. *)
Fixpoint splitlines (cs : list ascii) : list (list ascii) :=
  match cs with
  | [] => []
  | c :: rest =>
      if is_line_boundary c then
        [] :: match rest with
              | c' :: rest' =>
                  if Ascii.eqb c CR && Ascii.eqb c' LF then splitlines rest'
                  else splitlines rest
              | [] => splitlines rest
              end
      else
        match splitlines rest with
        | [] => [[c]]
        | line :: lines => (c :: line) :: lines
        end
  end.

Fixpoint lstrip (cs : list ascii) : list ascii :=
  match cs with
  | [] => []
  | c :: rest => if is_space c then lstrip rest else cs
  end.

Definition rstrip (cs : list ascii) : list ascii := rev (lstrip (rev cs)).

(** [line.strip()] *)
Definition strip (cs : list ascii) : list ascii := rstrip (lstrip cs).

Definition nonblank (cs : list ascii) : bool :=
  match strip cs with [] => false | _ :: _ => true end.

(** ["\n".join(lines)] *)
Fixpoint join_lines (lines : list (list ascii)) : list ascii :=
  match lines with
  | [] => []
  | [line] => line
  | line :: rest => line ++ LF :: join_lines rest
  end.

(** ["\n".join(line.strip() for line in text.splitlines() if line.strip())] *)
Definition normalize_chars (cs : list ascii) : list ascii :=
  join_lines (map strip (List.filter nonblank (splitlines cs))).

Definition normalize_lines (text : string) : string :=
  string_of_list_ascii (normalize_chars (list_ascii_of_string text)).

(** ** clean_html (app.py 53-93) *)

(** An exception is represented by its message, [str(e)]. *)
Definition exn : Type := string.

Inductive result (A : Type) : Type :=
| Ok (a : A)
| Raise (e : exn).
Arguments Ok {A} a.
Arguments Raise {A} e.

Section Sanitizer.
(** [BeautifulSoup(markup, "html.parser")], which may reject its input, and
    [str(soup)]. *)
Variable parse : string -> result soup_t.
Variable decode : soup_t -> string.

Definition clean_html (html_content : string) (clean_attributes : bool)
  : result string :=
  match parse html_content with
  | Raise e => Raise e
  | Ok soup =>
      let soup := clean_soup clean_attributes soup in
      let cleaned_html := decode soup in
      Ok (normalize_lines cleaned_html)
  end.
End Sanitizer.

(** ** The sanitizer as the specification words it *)

(** One traversal that drops every element whose name is in [names] together
    with its subtree and copies everything else. *)
Fixpoint remove_subtrees_node (names : list string) (n : node) : list node :=
  match n with
  | Tag name attrs contents =>
      if name_in name names then []
      else [Tag name attrs (flat_map (remove_subtrees_node names) contents)]
  | NavigableString kind text => [NavigableString kind text]
  end.

Definition remove_subtrees (names : list string) (soup : soup_t) : soup_t :=
  flat_map (remove_subtrees_node names) soup.

(** The elements of the input that lie neither at nor below an element with
    a name in [names], in document order, with the attributes they have in
    the input. *)
Fixpoint surviving_node (names : list string) (n : node) : list (string * attrs_t) :=
  match n with
  | Tag name attrs contents =>
      if name_in name names then []
      else (name, attrs) :: flat_map (surviving_node names) contents
  | NavigableString _ _ => []
  end.

Definition surviving (names : list string) (soup : soup_t) : list (string * attrs_t) :=
  flat_map (surviving_node names) soup.

(** The strings of the input that do not lie below such an element. *)
Fixpoint surviving_strings_node (names : list string) (n : node)
  : list (string_kind * string) :=
  match n with
  | Tag name _ contents =>
      if name_in name names then []
      else flat_map (surviving_strings_node names) contents
  | NavigableString kind text => [(kind, text)]
  end.

Definition surviving_strings (names : list string) (soup : soup_t)
  : list (string_kind * string) :=
  flat_map (surviving_strings_node names) soup.

(** The attribute rule of the specification: an anchor keeps [href], an image
    keeps [src] and [alt], each only when present and not empty; every other
    element keeps nothing. *)
Definition spec_element_attrs (name : string) (attrs : attrs_t) : attrs_t :=
  if String.eqb name "a" then dict_if_truthy [("href", get attrs "href")]
  else if String.eqb name "img" then
    dict_if_truthy [("src", get attrs "src"); ("alt", get attrs "alt")]
  else [].

(** What the attribute loop makes of one element of [find_all]. *)
Definition cleaned_element (e : string * attrs_t) : string * attrs_t :=
  (fst e, clean_element_attrs (fst e) (snd e)).


(** A line that [strip] leaves alone. *)
Definition trimmed (line : list ascii) : Prop :=
  lstrip line = line /\ lstrip (rev line) = rev line.

(** The lines that the line pass keeps, stripped. *)
Definition kept_lines (cs : list ascii) : list (list ascii) :=
  map strip (List.filter nonblank (splitlines cs)).

(** ** Runs of characters *)

(** The longest prefix whose characters satisfy [p], and the rest. *)
Fixpoint span (p : ascii -> bool) (cs : list ascii) : list ascii * list ascii :=
  match cs with
  | [] => ([], [])
  | c :: rest =>
      if p c then let (taken, left) := span p rest in (c :: taken, left)
      else ([], cs)
  end.

(** [text.split()]: the maximal runs without white space, which are also
    the matches of [\S+]. *)
Fixpoint words (fuel : nat) (cs : list ascii) : list (list ascii) :=
  match fuel with
  | O => []
  | S fuel =>
      match snd (span is_space cs) with
      | [] => []
      | c :: rest =>
          let (word, left) := span (fun x => negb (is_space x)) (c :: rest) in
          word :: words fuel left
      end
  end.

(** ** BeautifulSoup with html.parser, on a fragment of markup

    The parser and the printer belong to the library.  [BeautifulSoup] below
    follows [html.parser.HTMLParser] as driven by bs4's tree builder, and
    [decode] follows [Tag.decode] with the default formatter, on markup of
    this shape:
    - text without [&];
    - start tags [<name attr ...>] and [<name attr ... />]: the name is a
      letter followed by any characters other than TAB, LF, CR, FF, space,
      [/] and [>] (the parser's [tagfind_tolerant]); attributes are separated
      by TAB, LF, FF, CR or space and are written [name], [name=value],
      [name='value'] or [name="value"], without [&];
    - end tags [</name>] with a name of letters, digits and [-.:_];
    - [script], [style], [textarea], [title] and the other elements of
      [raw_text_elements], closed by their end tag, whose content has no
      [<];
    - a [<] followed by anything but a letter, [/], [!] or [?] is text.
    Comments, declarations, processing instructions, character references,
    [plaintext] and NUL are outside the fragment; on such markup the model
    answers [Raise unmodelled], which says nothing about the library.
    Inside the fragment the versions of the parser agree. *)
Module Bs4.
Local Open Scope nat_scope.

Definition code (c : ascii) : nat := nat_of_ascii c.

Definition LT : ascii := ascii_of_nat 60.
Definition GT : ascii := ascii_of_nat 62.
Definition SLASH : ascii := ascii_of_nat 47.
Definition EQUALS : ascii := ascii_of_nat 61.
Definition AMP : ascii := ascii_of_nat 38.
Definition DQUOTE : ascii := ascii_of_nat 34.
Definition SQUOTE : ascii := ascii_of_nat 39.
Definition BANG : ascii := ascii_of_nat 33.
Definition QUESTION : ascii := ascii_of_nat 63.
Definition SPACE : ascii := ascii_of_nat 32.

(** TAB, LF, FF, CR and space: the white space of HTML, and bs4's
    [ASCII_SPACES]. *)
Definition is_html_space (c : ascii) : bool :=
  name_in_nat (code c) [9; 10; 12; 13; 32].

Definition is_letter (c : ascii) : bool :=
  let n := code c in
  ((65 <=? n) && (n <=? 90)) || ((97 <=? n) && (n <=? 122)).

Definition is_digit (c : ascii) : bool :=
  let n := code c in (48 <=? n) && (n <=? 57).

(** [str.lower()] on one character below code point 256. *)
Definition lower (c : ascii) : ascii :=
  let n := code c in
  if ((65 <=? n) && (n <=? 90))
     || ((192 <=? n) && (n <=? 222) && negb (n =? 215))
  then ascii_of_nat (n + 32) else c.

(** [[^\t\n\r\f />\x00]] *)
Definition is_tag_name_char (c : ascii) : bool :=
  negb (name_in_nat (code c) [9; 10; 13; 12; 32; 47; 62; 0]).

(** [[-.a-zA-Z0-9:_]] *)
Definition is_endtag_name_char (c : ascii) : bool :=
  is_letter c || is_digit c || name_in_nat (code c) [45; 46; 58; 95].

(** White space of [str.isspace] that is not white space of HTML. *)
Definition is_other_space (c : ascii) : bool :=
  is_space c && negb (is_html_space c).

Definition is_attr_name_char (c : ascii) : bool :=
  negb (is_space c || name_in_nat (code c) [47; 61; 62]).

Definition is_bare_value_char (c : ascii) : bool :=
  negb (is_space c || Ascii.eqb c GT).

Definition has (c : ascii) (cs : list ascii) : bool := existsb (Ascii.eqb c) cs.

Definition str (cs : list ascii) : string := string_of_list_ascii cs.
Definition chars (s : string) : list ascii := list_ascii_of_string s.

Inductive token : Type :=
| StartTag (name : string) (attrs : list (string * string)) (startend : bool)
| EndTag (name : string)
| Data (c : ascii).

(** The attributes of a start tag, up to and including the closing [>];
    the flag tells whether the tag ended in [/>]. *)
Fixpoint parse_attrs (fuel : nat) (cs : list ascii) (acc : list (string * string))
  : option (list (string * string) * bool * list ascii) :=
  match fuel with
  | O => None
  | S fuel =>
      match snd (span is_html_space cs) with
      | [] => None
      | c :: rest =>
          if Ascii.eqb c GT then Some (acc, false, rest)
          else if Ascii.eqb c SLASH then
            match rest with
            | c' :: rest' => if Ascii.eqb c' GT then Some (acc, true, rest') else None
            | [] => None
            end
          else if is_other_space c || Ascii.eqb c EQUALS || Ascii.eqb c AMP then None
          else
            let (name, after_name) := span is_attr_name_char (c :: rest) in
            if has AMP name then None else
            let key := str (map lower name) in
            match snd (span is_html_space after_name) with
            | [] => None
            | e :: after_eq =>
                if is_other_space e then None
                else if Ascii.eqb e EQUALS then
                  match snd (span is_html_space after_eq) with
                  | [] => None
                  | q :: after_q =>
                      if Ascii.eqb q EQUALS && (length (fst (span is_html_space after_eq)) =? 0)
                      then None
                      else if Ascii.eqb q DQUOTE || Ascii.eqb q SQUOTE then
                        let (value, after_value) :=
                          span (fun x => negb (Ascii.eqb x q)) after_q in
                        match after_value with
                        | [] => None
                        | _ :: after_close =>
                            if has AMP value then None
                            else parse_attrs fuel after_close (acc ++ [(key, str value)])
                        end
                      else
                        let (value, after_value) :=
                          span is_bare_value_char (q :: after_q) in
                        match after_value with
                        | [] => None
                        | v :: _ =>
                            if is_other_space v || has AMP value then None
                            else parse_attrs fuel after_value (acc ++ [(key, str value)])
                        end
                  end
                else parse_attrs fuel (e :: after_eq) (acc ++ [(key, "")])
            end
      end
  end.

(** An end tag after [</]: the name and what follows the closing [>]. *)
Definition parse_endtag (cs : list ascii) : option (string * list ascii) :=
  match cs with
  | c :: _ =>
      if is_letter c then
        let (name, after_name) := span is_endtag_name_char cs in
        match snd (span is_html_space after_name) with
        | g :: rest => if Ascii.eqb g GT then Some (str (map lower name), rest) else None
        | [] => None
        end
      else None
  | [] => None
  end.

(** [HTMLParser.CDATA_CONTENT_ELEMENTS] *)
Definition cdata_content_elements : list string := ["script"; "style"].

(** The elements whose content one version or another of the parser reads
    as plain characters up to the end tag.  The fragment has no [<] inside
    them, and no [&] unless the element is [script] or [style]; every
    version then reads the same text. *)
Definition raw_text_elements : list string :=
  ["script"; "style"; "textarea"; "title"; "xmp"; "iframe"; "noembed";
   "noframes"; "noscript"].

(** [HTMLParser.goahead] with [convert_charrefs=False]. *)
Fixpoint tokenize (fuel : nat) (cs : list ascii) : option (list token) :=
  match fuel with
  | O => None
  | S fuel =>
      match cs with
      | [] => Some []
      | c :: rest =>
          if Ascii.eqb c AMP || (code c =? 0) then None
          else if Ascii.eqb c LT then
            match rest with
            | [] => Some [Data c]
            | c' :: rest' =>
                if is_letter c' then
                  let (name, after_name) := span is_tag_name_char rest in
                  let tag := str (map lower name) in
                  match parse_attrs (S (length after_name)) after_name [] with
                  | None => None
                  | Some (attrs, startend, after_tag) =>
                      if String.eqb tag "plaintext" then None
                      else if name_in tag raw_text_elements && negb startend then
                        let (text, after_text) :=
                          span (fun x => negb (Ascii.eqb x LT)) after_tag in
                        match after_text with
                        | _ :: s :: after_open =>
                            if Ascii.eqb s SLASH
                               && negb (has (ascii_of_nat 0) text)
                               && (name_in tag cdata_content_elements
                                   || negb (has AMP text)) then
                              match parse_endtag after_open with
                              | Some (endname, after_end) =>
                                  if String.eqb endname tag then
                                    match tokenize fuel after_end with
                                    | Some toks =>
                                        Some (StartTag tag attrs false
                                                :: map Data text ++ EndTag tag :: toks)
                                    | None => None
                                    end
                                  else None
                              | None => None
                              end
                            else None
                        | _ => None
                        end
                      else
                        match tokenize fuel after_tag with
                        | Some toks => Some (StartTag tag attrs startend :: toks)
                        | None => None
                        end
                  end
                else if Ascii.eqb c' SLASH then
                  match parse_endtag rest' with
                  | Some (name, after_end) =>
                      match tokenize fuel after_end with
                      | Some toks => Some (EndTag name :: toks)
                      | None => None
                      end
                  | None => None
                  end
                else if Ascii.eqb c' BANG || Ascii.eqb c' QUESTION then None
                else
                  match tokenize fuel rest with
                  | Some toks => Some (Data c :: toks)
                  | None => None
                  end
            end
          else
            match tokenize fuel rest with
            | Some toks => Some (Data c :: toks)
            | None => None
            end
      end
  end.

(** *** The tree builder *)

(** [HTMLTreeBuilder.empty_element_tags] *)
Definition empty_element_tags : list string :=
  ["area"; "base"; "br"; "col"; "embed"; "hr"; "img"; "input"; "keygen";
   "link"; "menuitem"; "meta"; "param"; "source"; "track"; "wbr";
   "basefont"; "bgsound"; "command"; "frame"; "image"; "isindex"; "nextid";
   "spacer"].

(** [HTMLTreeBuilder.preserve_whitespace_tags] *)
Definition preserve_whitespace_tags : list string := ["pre"; "textarea"].

(** [HTMLTreeBuilder.DEFAULT_CDATA_LIST_ATTRIBUTES]: the attributes whose
    value is a list of words. *)
Definition cdata_list_attribute (tag key : string) : bool :=
  name_in key ["class"; "accesskey"; "dropzone"]
  || (name_in tag ["a"; "link"] && name_in key ["rel"; "rev"])
  || (name_in tag ["td"; "th"] && String.eqb key "headers")
  || (String.eqb tag "form" && String.eqb key "accept-charset")
  || (String.eqb tag "object" && String.eqb key "archive")
  || (String.eqb tag "area" && String.eqb key "rel")
  || (String.eqb tag "icon" && String.eqb key "sizes")
  || (String.eqb tag "iframe" && String.eqb key "sandbox")
  || (String.eqb tag "output" && String.eqb key "for").

Fixpoint join_words (ws : list (list ascii)) : list ascii :=
  match ws with
  | [] => []
  | [w] => w
  | w :: rest => w ++ SPACE :: join_words rest
  end.

(** A list value is kept as its words joined by a space, the way it is
    printed. *)
Definition attribute_value (tag key value : string) : string :=
  if cdata_list_attribute tag key
  then str (join_words (words (S (String.length value)) (chars value)))
  else value.

(** [attr_dict[key] = value]: a later duplicate replaces the value and
    keeps the place of the first. *)
Fixpoint dict_set (d : attrs_t) (key value : string) : attrs_t :=
  match d with
  | [] => [(key, value)]
  | (k, v) :: rest =>
      if String.eqb k key then (k, value) :: rest
      else (k, v) :: dict_set rest key value
  end.

Definition attr_dict (tag : string) (attrs : list (string * string)) : attrs_t :=
  map (fun kv => (fst kv, attribute_value tag (fst kv) (snd kv)))
    (fold_left (fun d kv => dict_set d (fst kv) (snd kv)) attrs []).

(** An open element: its name, its attributes and its children so far,
    the last one first. *)
Definition frame : Type := string * attrs_t * list node.

(** The last frame of [tagStack] is the document itself. *)
Record builder : Type := {
  tagStack : list frame;
  current_data : list ascii;
  already_closed_empty_element : list string
}.

Definition attach (nodes : list node) (st : list frame) : list frame :=
  match st with
  | [] => []
  | (name, attrs, children) :: rest => (name, attrs, nodes ++ children) :: rest
  end.

Definition open_names (st : list frame) : list string :=
  map (fun f => fst (fst f)) (removelast st).

(** [endData]: the text collected so far becomes one string; a run of
    ASCII white space outside [pre] and [textarea] becomes one newline or
    one space. *)
Definition endData (b : builder) : builder :=
  match current_data b with
  | [] => b
  | _ :: _ =>
      let text := rev (current_data b) in
      let preserve :=
        existsb (fun nm => name_in nm preserve_whitespace_tags)
          (open_names (tagStack b)) in
      let text :=
        if negb preserve && forallb is_html_space text
        then (if has LF text then [LF] else [SPACE])
        else text in
      {| tagStack := attach [NavigableString PlainText (str text)] (tagStack b);
         current_data := [];
         already_closed_empty_element := already_closed_empty_element b |}
  end.

(** [_popToTag]: close the open elements down to the nearest one called
    [name]. *)
Fixpoint pop_to (name : string) (pending : list node) (st : list frame)
  : list frame :=
  match st with
  | [] => []
  | (nm, attrs, children) :: below =>
      match below with
      | [] => [(nm, attrs, pending ++ children)]
      | _ :: _ =>
          let closed := Tag nm attrs (rev (pending ++ children)) in
          if String.eqb nm name then attach [closed] below
          else pop_to name [closed] below
      end
  end.

Definition popToTag (name : string) (st : list frame) : list frame :=
  if name_in name (open_names st) then pop_to name [] st else st.

(** [BeautifulSoup.handle_endtag] *)
Definition soup_handle_endtag (name : string) (b : builder) : builder :=
  let b := endData b in
  {| tagStack := popToTag name (tagStack b);
     current_data := current_data b;
     already_closed_empty_element := already_closed_empty_element b |}.

Fixpoint remove_first (name : string) (l : list string) : list string :=
  match l with
  | [] => []
  | x :: rest => if String.eqb x name then rest else x :: remove_first name rest
  end.

(** [BeautifulSoupHTMLParser.handle_endtag] *)
Definition handle_endtag (name : string) (check_already_closed : bool)
    (b : builder) : builder :=
  if check_already_closed && name_in name (already_closed_empty_element b) then
    {| tagStack := tagStack b;
       current_data := current_data b;
       already_closed_empty_element :=
         remove_first name (already_closed_empty_element b) |}
  else soup_handle_endtag name b.

(** [BeautifulSoupHTMLParser.handle_starttag] and [handle_startendtag] *)
Definition handle_starttag (name : string) (attrs : list (string * string))
    (handle_empty_element : bool) (b : builder) : builder :=
  let b := endData b in
  let b :=
    {| tagStack := (name, attr_dict name attrs, []) :: tagStack b;
       current_data := current_data b;
       already_closed_empty_element := already_closed_empty_element b |} in
  if name_in name empty_element_tags && handle_empty_element then
    let b := handle_endtag name false b in
    {| tagStack := tagStack b;
       current_data := current_data b;
       already_closed_empty_element := already_closed_empty_element b ++ [name] |}
  else b.

Definition handle_token (b : builder) (t : token) : builder :=
  match t with
  | StartTag name attrs false => handle_starttag name attrs true b
  | StartTag name attrs true =>
      handle_endtag name true (handle_starttag name attrs false b)
  | EndTag name => handle_endtag name true b
  | Data c =>
      {| tagStack := tagStack b;
         current_data := c :: current_data b;
         already_closed_empty_element := already_closed_empty_element b |}
  end.

(** At the end of the markup every element still open is closed. *)
Fixpoint close_all (pending : list node) (st : list frame) : list node :=
  match st with
  | [] => rev pending
  | (nm, attrs, children) :: below =>
      match below with
      | [] => rev (pending ++ children)
      | _ :: _ => close_all [Tag nm attrs (rev (pending ++ children))] below
      end
  end.

Definition ROOT_TAG_NAME : string := "[document]".

Definition unmodelled : exn := "markup outside the modelled fragment".

(** [BeautifulSoup(markup, "html.parser")] *)
Definition BeautifulSoup (markup : string) : result soup_t :=
  match tokenize (S (String.length markup)) (chars markup) with
  | None => Raise unmodelled
  | Some toks =>
      let start :=
        {| tagStack := [(ROOT_TAG_NAME, [], [])];
           current_data := [];
           already_closed_empty_element := [] |} in
      Ok (close_all [] (tagStack (endData (fold_left handle_token toks start))))
  end.

(** *** The printer *)

(** [EntitySubstitution.substitute_xml], the [minimal] formatter. *)
Definition substitute_xml (s : string) : string :=
  str (flat_map (fun c =>
                   if Ascii.eqb c AMP then chars "&amp;"
                   else if Ascii.eqb c LT then chars "&lt;"
                   else if Ascii.eqb c GT then chars "&gt;"
                   else [c]) (chars s)).

(** [EntitySubstitution.quoted_attribute_value] *)
Definition quoted_attribute_value (value : string) : string :=
  let cs := chars value in
  if has DQUOTE cs then
    if has SQUOTE cs then
      str (DQUOTE :: flat_map (fun c => if Ascii.eqb c DQUOTE then chars "&quot;"
                                        else [c]) cs ++ [DQUOTE])
    else str (SQUOTE :: cs ++ [SQUOTE])
  else str (DQUOTE :: cs ++ [DQUOTE]).

Definition decode_attrs (attrs : attrs_t) : string :=
  String.concat ""
    (map (fun kv => " " +:+ fst kv +:+ "=" +:+ quoted_attribute_value (substitute_xml (snd kv)))
       attrs).

(** [Formatter.cdata_containing_tags]: text directly inside these is
    printed as it is. *)
Definition cdata_containing_tags : list string := ["script"; "style"].

Definition decode_string (parent : string) (kind : string_kind) (text : string)
  : string :=
  match kind with
  | PlainText =>
      if name_in parent cdata_containing_tags then text else substitute_xml text
  | Comment => "<!--" +:+ text +:+ "-->"
  | CData => "<![CDATA[" +:+ text +:+ "]]>"
  | ProcessingInstruction => "<?" +:+ text +:+ ">"
  | Declaration => "<?" +:+ text +:+ "?>"
  | Doctype => "<!DOCTYPE " +:+ text +:+ ">" +:+ str [LF]
  end.

(** [Tag.decode] *)
Fixpoint decode_node (parent : string) (n : node) : string :=
  match n with
  | Tag name attrs contents =>
      match contents with
      | [] =>
          if name_in name empty_element_tags
          then "<" +:+ name +:+ decode_attrs attrs +:+ "/>"
          else "<" +:+ name +:+ decode_attrs attrs +:+ "></" +:+ name +:+ ">"
      | _ :: _ =>
          "<" +:+ name +:+ decode_attrs attrs +:+ ">"
          +:+ String.concat "" (map (decode_node name) contents)
          +:+ "</" +:+ name +:+ ">"
      end
  | NavigableString kind text => decode_string parent kind text
  end.

(** [str(soup)] *)
Definition decode (soup : soup_t) : string :=
  String.concat "" (map (decode_node ROOT_TAG_NAME) soup).
End Bs4.

(** ** Sample documents *)

Definition DQ : string := String Bs4.DQUOTE "".
Definition NL : string := String LF "".

(** [<html><script>x</script><a href="/a" onclick="y">A</a></html>] *)
Definition scenario_markup : string :=
  "<html><script>x</script><a href=" +:+ DQ +:+ "/a" +:+ DQ
  +:+ " onclick=" +:+ DQ +:+ "y" +:+ DQ +:+ ">A</a></html>".

Definition scenario_soup : soup_t :=
  [Tag "html" []
     [Tag "script" [] [NavigableString PlainText "x"];
      Tag "a" [("href", "/a"); ("onclick", "y")] [NavigableString PlainText "A"]]].

(** [<html><a href="/a" onclick="y">A</a></html>] *)
Definition scenario_cleaned : string :=
  "<html><a href=" +:+ DQ +:+ "/a" +:+ DQ
  +:+ " onclick=" +:+ DQ +:+ "y" +:+ DQ +:+ ">A</a></html>".



Definition FS : string := String (ascii_of_nat 28) "".

(** A paragraph and an element whose name ends in a file separator:
    [<p>a</p><script\x1c>alert(1)]. *)
Definition fs_markup : string := "<p>a</p><script" +:+ FS +:+ ">alert(1)".

(** [<p>a</p><script\n>alert(1)</script\n>] *)
Definition fs_cleaned : string :=
  "<p>a</p><script" +:+ NL +:+ ">alert(1)</script" +:+ NL +:+ ">".








(** ** extract_links (app.py 95-104) *)

(** [soup.find_all('a', href=True)], each anchor given by [a_tag['href']]. *)
Definition anchor_hrefs (soup : soup_t) : list string :=
  flat_map (fun e => if String.eqb (fst e) "a"
                     then match get (snd e) "href" with
                          | Some href => [href]
                          | None => []
                          end
                     else [])
    (find_all soup).

(** [text.rstrip('/')]: every trailing slash goes. *)
Definition rstrip_slash (text : string) : string :=
  string_of_list_ascii
    (rev (snd (span (Ascii.eqb Bs4.SLASH) (rev (list_ascii_of_string text))))).

(** The body of the loop: what one [href] appends to [links]. *)
Definition link_of (base_url href : string) : list string :=
  if String.prefix "http" href then [href]
  else if String.prefix "/" href then [rstrip_slash base_url +:+ href]
  else [].

Definition collected_links (soup : soup_t) (base_url : string) : list string :=
  flat_map (link_of base_url) (anchor_hrefs soup).

(** [list(set(links))]: the order is the set's own. *)
Definition extract_links (soup : soup_t) (base_url : string) : list string :=
  elements (list_to_set (collected_links soup base_url) : gset string).



(** ** Computations that return, raise, or are still running

    The driver code is written in a state and exception monad over a state
    [St]; [OutOfFuel] stands for a loop that has not ended within the rounds
    it was given. *)
Section Effects.
Variable St : Type.

Inductive outcome (A : Type) : Type :=
| Returned (a : A) (s : St)
| Raised (e : exn) (s : St)
| OutOfFuel.

Definition M (A : Type) : Type := St -> outcome A.

Definition ret {A} (a : A) : M A := fun s => Returned A a s.

Definition bind {A A'} (m : M A) (k : A -> M A') : M A' :=
  fun s => match m s with
           | Returned _ a s' => k a s'
           | Raised _ e s' => Raised A' e s'
           | OutOfFuel _ => OutOfFuel A'
           end.

(** [try: body except Exception as e: handler] *)
Definition try_except {A} (body : M A) (handler : exn -> M A) : M A :=
  fun s => match body s with
           | Returned _ a s' => Returned A a s'
           | Raised _ e s' => handler e s'
           | OutOfFuel _ => OutOfFuel A
           end.

(** [try: body finally: cleanup], for a cleanup that does not raise. *)
Definition try_finally {A} (body : M A) (cleanup : St -> St) : M A :=
  fun s => match body s with
           | Returned _ a s' => Returned A a (cleanup s')
           | Raised _ e s' => Raised A e (cleanup s')
           | OutOfFuel _ => OutOfFuel A
           end.

(** A statement that changes the state and neither returns a value nor
    raises. *)
Definition modify (f : St -> St) : M unit := fun s => Returned unit tt (f s).

(** [raise e] *)
Definition raise {A} (e : exn) : M A := fun s => Raised A e s.

Definition of_result {A} (r : result A) : M A :=
  fun s => match r with
           | Ok a => Returned A a s
           | Raise e => Raised A e s
           end.
End Effects.

Arguments Returned {St A} a s.
Arguments Raised {St A} e s.
Arguments OutOfFuel {St A}.
Arguments ret {St A} a _.
Arguments bind {St A A'} m k _.
Arguments try_except {St A} body handler _.
Arguments try_finally {St A} body cleanup _.
Arguments modify {St} f _.
Arguments raise {St A} e _.
Arguments of_result {St A} r _.

Notation "'let*' x ':=' m 'in' k" := (bind m (fun x => k))
  (at level 10, x name, m at level 100, k at level 200).

(** ** scrape_url (app.py 42-51 and 106-146) *)

(** One entry of [links_data]: the dict with the keys ['url'] and
    ['content']. *)
Record link_data : Type := { ld_url : string; ld_content : string }.

(** [link_content[:500] + '...' if len(link_content) > 500 else link_content] *)
Definition excerpt (link_content : string) : string :=
  if (500 <? String.length link_content)%nat
  then String.substring 0 500 link_content +:+ "..."
  else link_content.

(** [items[:stop]] for an integer [stop], which may be negative. *)
Definition slice_to {A} (items : list A) (stop : Z) : list A :=
  if (stop <? 0)%Z then take (length items - Z.to_nat (- stop)) items
  else take (Z.to_nat stop) items.

(** The browser and what lies behind it.  Every call on the driver may raise
    and may change the world; [driver.quit()] and [time.sleep] do not
    raise. *)
Record Browser : Type := {
  World : Type;
  (** [webdriver.Chrome(options=options)] *)
  webdriver_Chrome : World -> result unit * World;
  (** [driver.get(url)] *)
  driver_get : string -> World -> result unit * World;
  (** [WebDriverWait(driver, 10).until(...)], waiting for [readyState]
      to be [complete] *)
  wait_until_complete : World -> result unit * World;
  (** [driver.execute_script("return document.body.scrollHeight")] *)
  script_scrollHeight : World -> result Z * World;
  (** [driver.execute_script("window.scrollTo(0, document.body.scrollHeight);")] *)
  script_scrollTo_bottom : World -> result unit * World;
  (** [driver.page_source] *)
  driver_page_source : World -> result string * World;
  driver_quit : World -> World;
  time_sleep : nat -> World -> World
}.

Section Fetcher.
Variable Br : Browser.
Variable parse : string -> result soup_t.
Variable decode : soup_t -> string.

(** The world together with what the function has done to it: whether
    [driver] is bound, whether its session is open, how often [quit] was
    called, the URLs passed to [driver.get], and the messages passed to
    [st.error]. *)
Record state : Type := {
  world : World Br;
  driver_bound : bool;
  session_open : bool;
  quit_calls : nat;
  visited : list string;
  errors : list string
}.

Definition initial (w : World Br) : state :=
  {| world := w; driver_bound := false; session_open := false;
     quit_calls := 0; visited := []; errors := [] |}.

Definition with_world (s : state) (w : World Br) : state :=
  {| world := w; driver_bound := driver_bound s; session_open := session_open s;
     quit_calls := quit_calls s; visited := visited s; errors := errors s |}.

(** A call on the collaborator. *)
Definition call {A} (op : World Br -> result A * World Br) : M state A :=
  fun s => match op (world s) with
           | (Ok a, w) => Returned a (with_world s w)
           | (Raise e, w) => Raised e (with_world s w)
           end.

(** [driver = setup_selenium()] *)
Definition setup_selenium : M state unit :=
  fun s => match webdriver_Chrome Br (world s) with
           | (Ok _, w) =>
               Returned tt
                 {| world := w; driver_bound := true; session_open := true;
                    quit_calls := quit_calls s; visited := visited s;
                    errors := errors s |}
           | (Raise e, w) => Raised e (with_world s w)
           end.

(** [driver.get(url)] *)
Definition get_url (url : string) : M state unit :=
  fun s => call (driver_get Br url)
             {| world := world s; driver_bound := driver_bound s;
                session_open := session_open s; quit_calls := quit_calls s;
                visited := visited s ++ [url]; errors := errors s |}.

(** [driver.quit()] *)
Definition quit (s : state) : state :=
  {| world := driver_quit Br (world s); driver_bound := driver_bound s;
     session_open := false; quit_calls := S (quit_calls s);
     visited := visited s; errors := errors s |}.

(** [time.sleep(seconds)] *)
Definition sleep (seconds : nat) : M state unit :=
  modify (fun s => with_world s (time_sleep Br seconds (world s))).

(** [st.error(message)] *)
Definition st_error (message : string) : M state unit :=
  modify (fun s =>
            {| world := world s; driver_bound := driver_bound s;
               session_open := session_open s; quit_calls := quit_calls s;
               visited := visited s; errors := errors s ++ [message] |}).

(** The [while True] loop of [scroll_page]; [fuel] bounds the number of
    rounds. *)
Fixpoint scroll_loop (fuel : nat) (last_height : Z) : M state unit :=
  match fuel with
  | O => fun _ => OutOfFuel
  | S fuel =>
      let* _ := call (script_scrollTo_bottom Br) in
      let* _ := sleep 2 in
      let* new_height := call (script_scrollHeight Br) in
      if (new_height =? last_height)%Z then ret tt
      else scroll_loop fuel new_height
  end.

Definition scroll_page (fuel : nat) : M state unit :=
  let* last_height := call (script_scrollHeight Br) in
  scroll_loop fuel last_height.

(** Lines 110-121, once the session is there: the page, the wait, the
    scrolling, the capture and the sanitizing. *)
Definition after_setup (fuel : nat) (url : string) : M state (soup_t * string) :=
  let* _ := get_url url in
  let* _ := call (wait_until_complete Br) in
  let* _ := scroll_page fuel in
  let* page_source := call (driver_page_source Br) in
  let* soup := of_result (parse page_source) in
  let* main_content := of_result (clean_html parse decode page_source true) in
  ret (soup, main_content).

(** Lines 109-121. *)
Definition primary (fuel : nat) (url : string) : M state (soup_t * string) :=
  let* _ := setup_selenium in
  after_setup fuel url.

Definition link_error (link : string) (e : exn) : string :=
  "Error scraping link " +:+ link +:+ ": " +:+ e.

(** Lines 127-136, the body of the loop over the links: what it appends to
    [links_data]. *)
Definition scrape_link (link : string) : M state (list link_data) :=
  try_except
    (let* _ := get_url link in
     let* _ := sleep 2 in
     let* page_source := call (driver_page_source Br) in
     let* link_content := of_result (clean_html parse decode page_source true) in
     ret [{| ld_url := link; ld_content := excerpt link_content |}])
    (fun e => let* _ := st_error (link_error link e) in ret []).

Fixpoint scrape_links (links : list string) (links_data : list link_data)
  : M state (list link_data) :=
  match links with
  | [] => ret links_data
  | link :: rest =>
      let* new := scrape_link link in
      scrape_links rest (links_data ++ new)
  end.

Definition scraping_error (e : exn) : string := "Error during scraping: " +:+ e.

(** Lines 123-139: the links, the first [driver.quit()] and the result. *)
Definition secondary (url : string) (extract_links_flag : bool) (max_links : Z)
    (r : soup_t * string) : M state (option string * list link_data) :=
  let* links_data :=
    (if extract_links_flag
     then scrape_links (slice_to (extract_links (fst r) url) max_links) []
     else ret []) in
  let* _ := modify quit in
  ret (Some (snd r), links_data).

(** The [finally] clause: [if 'driver' in locals(): driver.quit()]. *)
Definition release (s : state) : state :=
  if driver_bound s then quit s else s.

Definition scrape_url (fuel : nat) (url : string) (extract_links_flag : bool)
    (max_links : Z) (w : World Br)
  : outcome state (option string * list link_data) :=
  try_finally
    (try_except
       (let* r := primary fuel url in
        secondary url extract_links_flag max_links r)
       (fun e => let* _ := st_error (scraping_error e) in ret (None, [])))
    release
    (initial w).
End Fetcher.

Arguments world {Br} s.
Arguments driver_bound {Br} s.
Arguments session_open {Br} s.
Arguments quit_calls {Br} s.
Arguments visited {Br} s.
Arguments errors {Br} s.

(** ** ModelWrapper (model_wrapper.py) *)

(** What reading [response.text] does: the attribute is missing
    ([AttributeError], so [hasattr] is false), reading it raises another
    exception, or it has a value. *)
Inductive text_attribute : Type :=
| TextAbsent
| TextFails (e : exn)
| TextIs (value : string).

Record response : Type := { response_text : text_attribute }.

(** The generative model: [self.model.generate_content(contents=...,
    generation_config={'temperature': ...})]. *)
Record Model : Type := {
  ModelWorld : Type;
  generate_content : string -> Q -> ModelWorld -> result response * ModelWorld
}.

(** A record handed to the logger: the format string with its arguments, as
    the logging module receives them. *)
Inductive log_arg : Type :=
| ArgInt (n : nat)
| ArgStr (s : string)
| ArgRepr (r : response).

Inductive log_record : Type :=
| Info (format : string) (args : list log_arg)
| Error (message : string).

(** [format_prompt]: the f-string of lines 40-47. *)
Definition format_prompt (system_prompt content_prompt : string) : string :=
  NL +:+ "[INST]" +:+ NL +:+ system_prompt +:+ NL +:+ NL
  +:+ "Content to process:" +:+ NL +:+ content_prompt +:+ NL
  +:+ "[/INST]" +:+ NL.

(** [count_tokens]: [len(text.split())] *)
Definition count_tokens (text : string) : nat :=
  length (words (S (String.length text)) (list_ascii_of_string text)).

(** ["-" * 50] *)
Definition dashes : string := string_of_list_ascii (repeat "-"%char 50).

Section Analysis.
Variable Md : Model.

(** The model's world, the number of [generate_content] calls made, and the
    log. *)
Record analysis_state : Type := {
  model_world : ModelWorld Md;
  generate_calls : nat;
  log : list log_record
}.

Definition logger (r : log_record) : M analysis_state unit :=
  modify (fun s => {| model_world := model_world s;
                      generate_calls := generate_calls s;
                      log := log s ++ [r] |}).

Definition model_generate_content (contents : string) (temperature : Q)
  : M analysis_state response :=
  fun s =>
    match generate_content Md contents temperature (model_world s) with
    | (Ok r, w) =>
        Returned r {| model_world := w; generate_calls := S (generate_calls s);
                      log := log s |}
    | (Raise e, w) =>
        Raised e {| model_world := w; generate_calls := S (generate_calls s);
                    log := log s |}
    end.

(** [hasattr(response, 'text') and response.text], as the value that the
    test sees: [None] when the attribute is missing. *)
Definition read_text (r : response) : M analysis_state (option string) :=
  match response_text r with
  | TextAbsent => ret None
  | TextFails e => raise e
  | TextIs value => ret (Some value)
  end.

Definition single_shot_completion (system_prompt content_prompt : string)
    (temperature : Q) : M analysis_state string :=
  let* _ := logger (Info "=== Starting Gemini API Request ===" []) in
  let formatted_prompt := format_prompt system_prompt content_prompt in
  let* _ := logger (Info "Formatted Prompt:" []) in
  let* _ := logger (Info dashes []) in
  let* _ := logger (Info formatted_prompt []) in
  let* _ := logger (Info dashes []) in
  let input_token_count := count_tokens formatted_prompt in
  let* _ := logger (Info "Input token count: %d" [ArgInt input_token_count]) in
  try_except
    (let* response := model_generate_content formatted_prompt temperature in
     let* _ := logger (Info "=== Gemini API Response Received ===" []) in
     let* _ := logger (Info "Full Gemini API Response object: %s" [ArgRepr response]) in
     let* text := read_text response in
     match text with
     | Some full_response_text =>
         if truthy text then
           let* _ := logger (Info ("LLM Response Content:" +:+ NL +:+ "%s")
                               [ArgStr full_response_text]) in
           let output_token_count := count_tokens full_response_text in
           let* _ := logger (Info "Output token count: %d"
                               [ArgInt output_token_count]) in
           ret full_response_text
         else
           let* _ := logger (Info "Response object does not have a 'text' attribute or it is empty." []) in
           ret ""
     | None =>
         let* _ := logger (Info "Response object does not have a 'text' attribute or it is empty." []) in
         ret ""
     end)
    (fun e =>
       let* _ := logger (Error ("API request failed: " +:+ e)) in
       raise e).

Definition analysis_system_prompt : string :=
  "You are an expert web developer and technical analyst with extensive knowledge in website design, "
  +:+ "web frameworks, and modern web tools. Your task is to generate an extremely detailed, sentence-like "
  +:+ "analysis of the website's HTML structure and design. Include details on design elements such as the "
  +:+ "location and styling of the brand logo, menu items (and their names if discernible), interactive effects "
  +:+ "(e.g., spinning image effects, carousels, sliding sections), layout details (e.g., divisions with two "
  +:+ "columns, grid structures), and any web frameworks or tools in use (e.g., Bootstrap, React, Angular, etc.). "
  +:+ "Focus on clarity and precision in your descriptions.".

Definition analysis_content_prompt (html_content : string) : string :=
  "Examine the following website's HTML content and provide a detailed sentence-like analysis. Your analysis "
  +:+ "should mention specific design elements such as:" +:+ NL
  +:+ "- The presence and location of a brand logo (for example, top left)." +:+ NL
  +:+ "- Menu items and their names (for example, top right navigation)." +:+ NL
  +:+ "- Any interactive visual effects (for example, a spinning image effect, carousels, sliding sections)." +:+ NL
  +:+ "- Layout details (for example, a division with two columns, grid layout, etc.)." +:+ NL
  +:+ "- Identification of any web frameworks, tools, or libraries in use." +:+ NL +:+ NL
  +:+ "Here is the website's HTML:" +:+ NL +:+ html_content.

(** The float [0.7], as the decimal it is written as. *)
Definition analysis_temperature : Q := (7 # 10)%Q.

Definition analyze_html_content (html_content : string) : M analysis_state string :=
  single_shot_completion analysis_system_prompt
    (analysis_content_prompt html_content) analysis_temperature.
End Analysis.

Arguments model_world {Md} _.
Arguments generate_calls {Md} _.
Arguments log {Md} _.

(** ** A browser for the examples *)

(** The URLs that cannot be reached, and the page the browser is on. *)
Record sample_world : Type := { dead : list string; location : string }.

Definition long_text : string := string_of_list_ascii (repeat "a"%char 600).

(** The markup served at [url]. *)
Definition sample_page (url : string) : string :=
  if String.eqb url "https://example.com/long"
  then "<p>" +:+ long_text +:+ "</p>"
  else "<html><body><p>" +:+ url +:+ "</p></body></html>".

Definition sample_browser : Browser :=
  {| World := sample_world;
     webdriver_Chrome := fun w => (Ok tt, w);
     driver_get := fun url w =>
       if name_in url (dead w)
       then (Raise "net::ERR_CONNECTION_REFUSED", w)
       else (Ok tt, {| dead := dead w; location := url |});
     wait_until_complete := fun w => (Ok tt, w);
     script_scrollHeight := fun w => (Ok 1000%Z, w);
     script_scrollTo_bottom := fun w => (Ok tt, w);
     driver_page_source := fun w => (Ok (sample_page (location w)), w);
     driver_quit := fun w => w;
     time_sleep := fun _ w => w |}.

Definition five_links : list string :=
  ["https://example.com/1"; "https://example.com/2"; "https://example.com/3";
   "https://example.com/4"; "https://example.com/5"].

(** A world in which the third of the five links cannot be reached. *)
Definition sample_start : sample_world :=
  {| dead := ["https://example.com/3"]; location := "about:blank" |}.

(** ** What a step leaves alone *)

(** The driver's bookkeeping and the error messages are the same in [s'] as
    in [s]. *)
Definition unchanged {Br} (s s' : state Br) : Prop :=
  driver_bound s' = driver_bound s /\ session_open s' = session_open s
  /\ quit_calls s' = quit_calls s /\ errors s' = errors s.

(** However [m] ends, it ends in a state related to the one it started
    in. *)
Definition ends_with {St A} (R : St -> St -> Prop) (m : M St A) : Prop :=
  forall s, match m s with
            | Returned _ s' => R s s'
            | Raised _ s' => R s s'
            | OutOfFuel => True
            end.

(** A link that could not be scraped, with the exception. *)
Definition failed_link : Type := string * exn.

(** What the loop made of one link: an entry of [links_data], or a failure
    that was reported. *)
Definition link_result : Type := link_data + failed_link.

Definition result_link (r : link_result) : string :=
  match r with
  | inl d => ld_url d
  | inr f => fst f
  end.

Definition successes (rs : list link_result) : list link_data :=
  flat_map (fun r => match r with inl d => [d] | inr _ => [] end) rs.

Definition failures (rs : list link_result) : list failed_link :=
  flat_map (fun r => match r with inl _ => [] | inr f => [f] end) rs.


(** ** The linked pages, link by link *)

(** What fetching one linked page comes to, read off the browser's replies:
    the navigation, the capture after the pause and the sanitizing can each
    fail, and then the link has no entry and its failure is the one
    reported; otherwise the entry is the link with the excerpt of its
    sanitized page. *)
Definition fetch_link (Br : Browser) (parse : string -> result soup_t)
    (decode : soup_t -> string) (link : string) (w : World Br)
  : link_result * World Br :=
  match driver_get Br link w with
  | (Raise e, w1) => (inr (link, e), w1)
  | (Ok _, w1) =>
      match driver_page_source Br (time_sleep Br 2 w1) with
      | (Raise e, w2) => (inr (link, e), w2)
      | (Ok page_source, w2) =>
          match clean_html parse decode page_source true with
          | Raise e => (inr (link, e), w2)
          | Ok link_content =>
              (inl {| ld_url := link; ld_content := excerpt link_content |}, w2)
          end
      end
  end.

(** The links one after the other, each from the world the one before it
    left, whatever became of that one. *)
Fixpoint fetch_links (Br : Browser) (parse : string -> result soup_t)
    (decode : soup_t -> string) (links : list string) (w : World Br)
  : list link_result * World Br :=
  match links with
  | [] => ([], w)
  | link :: rest =>
      let (r, w1) := fetch_link Br parse decode link w in
      let (rs, w2) := fetch_links Br parse decode rest w1 in
      (r :: rs, w2)
  end.

(** The state [s] after the links have been fetched with the outcomes [rs],
    the browser being left in [w]. *)
Definition after_links {Br} (s : state Br) (links : list string)
    (rs : list link_result) (w : World Br) : state Br :=
  {| world := w; driver_bound := driver_bound s; session_open := session_open s;
     quit_calls := quit_calls s; visited := visited s ++ links;
     errors := errors s
               ++ map (fun f => link_error (fst f) (snd f)) (failures rs) |}.

(** * Properties *)

(** ** Trees *)

Lemma soup_forall_ind (P : node -> Prop) :
  (forall name attrs contents, Forall P contents -> P (Tag name attrs contents)) ->
  (forall kind text, P (NavigableString kind text)) ->
  forall soup : soup_t, Forall P soup.
Proof.
  intros Htag Hstr soup.
  induction soup as [|n soup IH]; constructor;
    [apply node_forall_ind; assumption | assumption].
Qed.

Lemma flat_map_Forall_ext {A B} (f g : A -> list B) (l : list A) :
  Forall (fun x => f x = g x) l -> flat_map f l = flat_map g l.
Proof.
  induction 1 as [|x l Hx _ IH]; simpl; [reflexivity | now rewrite Hx, IH].
Qed.


Lemma flat_map_flat_map {A B C} (f : A -> list B) (g : B -> list C) (l : list A) :
  flat_map g (flat_map f l) = flat_map (fun x => flat_map g (f x)) l.
Proof.
  induction l as [|x l IH]; simpl; [reflexivity|].
  now rewrite flat_map_app, IH.
Qed.

(** Removing one more name first is the same as removing it along with the
    others. *)
Lemma remove_subtrees_decompose (tag : string) (names : list string) (n : node) :
  flat_map (remove_subtrees_node names) (decompose_node tag n)
  = remove_subtrees_node (tag :: names) n.
Proof.
  induction n as [name attrs contents IH | kind text] using node_forall_ind;
    simpl; [|reflexivity].
  destruct (String.eqb name tag) eqn:E; simpl; [reflexivity|].
  destruct (name_in name names); simpl; [reflexivity|].
  do 2 f_equal.
  rewrite flat_map_flat_map. now apply flat_map_Forall_ext.
Qed.

Lemma remove_subtrees_decompose_all tag names soup :
  remove_subtrees names (decompose_all tag soup) = remove_subtrees (tag :: names) soup.
Proof.
  unfold remove_subtrees, decompose_all. rewrite flat_map_flat_map.
  apply flat_map_Forall_ext, Forall_forall. intros n _.
  apply remove_subtrees_decompose.
Qed.

Lemma remove_subtrees_nil_node (n : node) : remove_subtrees_node [] n = [n].
Proof.
  induction n as [name attrs contents IH | kind text] using node_forall_ind;
    simpl; [|reflexivity].
  do 2 f_equal. induction IH as [|x l Hx _ IHl]; simpl; [reflexivity|].
  now rewrite Hx, IHl.
Qed.

Lemma remove_subtrees_nil soup : remove_subtrees [] soup = soup.
Proof.
  unfold remove_subtrees. induction soup as [|n soup IH]; simpl; [reflexivity|].
  now rewrite remove_subtrees_nil_node, IH.
Qed.

Lemma name_in_app name l1 l2 : name_in name (l1 ++ l2) = name_in name l1 || name_in name l2.
Proof. unfold name_in. apply existsb_app. Qed.

(** The order in which the names are listed does not matter, only which
    names are listed. *)
Lemma remove_subtrees_ext_node names1 names2 (n : node) :
  (forall name, name_in name names1 = name_in name names2) ->
  remove_subtrees_node names1 n = remove_subtrees_node names2 n.
Proof.
  intros Hext.
  induction n as [name attrs contents IH | kind text] using node_forall_ind;
    simpl; [|reflexivity].
  rewrite Hext. destruct (name_in name names2); [reflexivity|].
  do 2 f_equal. now apply flat_map_Forall_ext.
Qed.

Lemma fold_decompose_all (tags names : list string) (soup : soup_t) :
  remove_subtrees names (fold_left (fun s tag => decompose_all tag s) tags soup)
  = remove_subtrees (rev tags ++ names) soup.
Proof.
  revert names soup. induction tags as [|tag tags IH]; intros names soup; simpl.
  - reflexivity.
  - rewrite IH, remove_subtrees_decompose_all.
    unfold remove_subtrees. apply flat_map_Forall_ext, Forall_forall. intros n _.
    apply remove_subtrees_ext_node. intros name.
    rewrite <- app_assoc. simpl.
    rewrite !name_in_app. simpl. 
    destruct (name_in name (rev tags)), (String.eqb name tag), (name_in name names);
      reflexivity.
Qed.

Lemma name_in_rev name l : name_in name (rev l) = name_in name l.
Proof.
  induction l as [|x l IH]; simpl; [reflexivity|].
  rewrite name_in_app, IH. simpl. rewrite orb_false_r. apply orb_comm.
Qed.

Lemma remove_unwanted_spec (soup : soup_t) :
  remove_unwanted soup = remove_subtrees unwanted_tags soup.
Proof.
  unfold remove_unwanted.
  rewrite <- (remove_subtrees_nil (fold_left _ _ _)), fold_decompose_all.
  unfold remove_subtrees. apply flat_map_Forall_ext, Forall_forall. intros n _.
  apply remove_subtrees_ext_node. intros name. rewrite app_nil_r.
  apply name_in_rev.
Qed.

Lemma find_all_remove_subtrees_node names (n : node) :
  flat_map find_all_node (remove_subtrees_node names n) = surviving_node names n.
Proof.
  induction n as [name attrs contents IH | kind text] using node_forall_ind;
    simpl; [|reflexivity].
  destruct (name_in name names); simpl; [reflexivity|].
  rewrite app_nil_r. f_equal.
  rewrite flat_map_flat_map. now apply flat_map_Forall_ext.
Qed.

Lemma find_all_remove_subtrees names soup :
  find_all (remove_subtrees names soup) = surviving names soup.
Proof.
  unfold find_all, remove_subtrees, surviving. rewrite flat_map_flat_map.
  apply flat_map_Forall_ext, Forall_forall. intros n _.
  apply find_all_remove_subtrees_node.
Qed.

Lemma strings_remove_subtrees_node names (n : node) :
  flat_map strings_node (remove_subtrees_node names n)
  = surviving_strings_node names n.
Proof.
  induction n as [name attrs contents IH | kind text] using node_forall_ind;
    simpl; [|reflexivity].
  destruct (name_in name names); simpl; [reflexivity|].
  rewrite app_nil_r, flat_map_flat_map. now apply flat_map_Forall_ext.
Qed.

Lemma strings_remove_subtrees names soup :
  strings (remove_subtrees names soup) = surviving_strings names soup.
Proof.
  unfold strings, remove_subtrees, surviving_strings. rewrite flat_map_flat_map.
  apply flat_map_Forall_ext, Forall_forall. intros n _.
  apply strings_remove_subtrees_node.
Qed.

Lemma flat_map_Forall {A B} (P : B -> Prop) (f : A -> list B) (l : list A) :
  Forall (fun x => Forall P (f x)) l -> Forall P (flat_map f l).
Proof.
  induction 1 as [|x l Hx _ IH]; simpl; [constructor|].
  apply Forall_app; split; assumption.
Qed.

Lemma surviving_node_names names (n : node) :
  Forall (fun e => name_in (fst e) names = false) (surviving_node names n).
Proof.
  induction n as [name attrs contents IH | kind text] using node_forall_ind;
    simpl; [|constructor].
  destruct (name_in name names) eqn:E; [constructor|].
  constructor; [exact E|]. now apply flat_map_Forall.
Qed.

Lemma surviving_names names soup :
  Forall (fun e => name_in (fst e) names = false) (surviving names soup).
Proof.
  unfold surviving. apply flat_map_Forall, Forall_forall. intros n _.
  apply surviving_node_names.
Qed.


Lemma find_all_clean_attributes_node (n : node) :
  find_all_node (clean_attributes_node n) = map cleaned_element (find_all_node n).
Proof.
  induction n as [name attrs contents IH | kind text] using node_forall_ind;
    simpl; [|reflexivity].
  unfold cleaned_element at 1. simpl. f_equal.
  induction IH as [|x l Hx _ IHl]; simpl; [reflexivity|].
  now rewrite map_app, Hx, IHl.
Qed.

Lemma find_all_clean_attributes soup :
  find_all (map clean_attributes_node soup) = map cleaned_element (find_all soup).
Proof.
  unfold find_all. induction soup as [|n soup IH]; simpl; [reflexivity|].
  now rewrite map_app, find_all_clean_attributes_node, IH.
Qed.

Lemma strings_clean_attributes_node (n : node) :
  strings_node (clean_attributes_node n) = strings_node n.
Proof.
  induction n as [name attrs contents IH | kind text] using node_forall_ind;
    simpl; [|reflexivity].
  induction IH as [|x l Hx _ IHl]; simpl; [reflexivity|].
  now rewrite Hx, IHl.
Qed.

Lemma strings_clean_attributes soup :
  strings (map clean_attributes_node soup) = strings soup.
Proof.
  unfold strings. induction soup as [|n soup IH]; simpl; [reflexivity|].
  now rewrite strings_clean_attributes_node, IH.
Qed.

Lemma Forall_map_fst {A B} (P : A -> Prop) (f : A * B -> A * B) (l : list (A * B)) :
  (forall e, fst (f e) = fst e) ->
  Forall (fun e => P (fst e)) l -> Forall (fun e => P (fst e)) (map f l).
Proof.
  intros Hf. induction 1 as [|x l Hx _ IH]; simpl; constructor; [|assumption].
  now rewrite Hf.
Qed.

Lemma find_all_clean_soup (clean_attributes : bool) soup :
  find_all (clean_soup clean_attributes soup)
  = (if clean_attributes then map cleaned_element else id)
      (surviving unwanted_tags soup).
Proof.
  unfold clean_soup. rewrite remove_unwanted_spec.
  destruct clean_attributes.
  - now rewrite find_all_clean_attributes, find_all_remove_subtrees.
  - apply find_all_remove_subtrees.
Qed.

(** ** Lines *)

Lemma lstrip_split (cs : list ascii) :
  exists pre, cs = pre ++ lstrip cs.
Proof.
  induction cs as [|c cs [pre IH]]; simpl.
  - now exists [].
  - destruct (is_space c).
    + exists (c :: pre). simpl. now f_equal.
    + now exists [].
Qed.

Lemma lstrip_head (cs : list ascii) c rest :
  lstrip cs = c :: rest -> is_space c = false.
Proof.
  induction cs as [|c' cs IH]; simpl; [discriminate|].
  destruct (is_space c') eqn:E; [assumption|].
  intros [= -> _]. exact E.
Qed.

Lemma lstrip_fixed c rest : is_space c = false -> lstrip (c :: rest) = c :: rest.
Proof. intros E. simpl. now rewrite E. Qed.

Lemma lstrip_idem (cs : list ascii) : lstrip (lstrip cs) = lstrip cs.
Proof.
  destruct (lstrip cs) as [|c rest] eqn:E; [reflexivity|].
  apply lstrip_fixed. eapply lstrip_head, E.
Qed.

Lemma strip_trimmed (cs : list ascii) : trimmed (strip cs).
Proof.
  unfold trimmed, strip, rstrip.
  set (a := lstrip cs). set (b := lstrip (rev a)).
  assert (Hb : lstrip b = b) by apply lstrip_idem.
  rewrite rev_involutive. split; [|exact Hb].
  destruct (lstrip_split (rev a)) as [pre Hpre]. fold b in Hpre.
  assert (Ha : a = rev b ++ rev pre).
  { rewrite <- (rev_involutive a), Hpre, rev_app_distr. reflexivity. }
  destruct (rev b) as [|c rest] eqn:Erb; [reflexivity|].
  apply lstrip_fixed. simpl in Ha.
  eapply (lstrip_head cs). fold a. exact Ha.
Qed.

Lemma strip_fixed (line : list ascii) : trimmed line -> strip line = line.
Proof.
  intros [Hl Hr]. unfold strip, rstrip. rewrite Hl, Hr. apply rev_involutive.
Qed.

Lemma strip_idem (cs : list ascii) : strip (strip cs) = strip cs.
Proof. apply strip_fixed, strip_trimmed. Qed.












(** ** The line pass, character by character *)

Lemma boundary_is_space (c : ascii) : is_line_boundary c = true -> is_space c = true.
Proof. destruct c as [[] [] [] [] [] [] [] []]; vm_compute; congruence. Qed.

Lemma lstrip_spaces (cs : list ascii) :
  exists pre, cs = pre ++ lstrip cs /\ Forall (fun c => is_space c = true) pre.
Proof.
  induction cs as [|c cs (pre & IH & Hpre)]; simpl.
  - exists []. split; [reflexivity | constructor].
  - destruct (is_space c) eqn:E.
    + exists (c :: pre). split; [simpl; now f_equal | now constructor].
    + exists []. split; [reflexivity | constructor].
Qed.

(** [strip] takes white space off both ends and nothing else. *)
Lemma strip_spaces (cs : list ascii) :
  exists before after,
    cs = before ++ strip cs ++ after
    /\ Forall (fun c => is_space c = true) before
    /\ Forall (fun c => is_space c = true) after.
Proof.
  unfold strip, rstrip.
  destruct (lstrip_spaces cs) as (before & Hcs & Hbefore).
  destruct (lstrip_spaces (rev (lstrip cs))) as (pre & Hrev & Hpre).
  exists before, (rev pre). split; [|split; [exact Hbefore | now apply Forall_rev]].
  rewrite Hcs at 1. f_equal.
  apply (f_equal (@rev ascii)) in Hrev.
  now rewrite rev_involutive, rev_app_distr in Hrev.
Qed.

Lemma lstrip_nil_iff (cs : list ascii) :
  lstrip cs = [] <-> Forall (fun c => is_space c = true) cs.
Proof.
  induction cs as [|c cs IH]; simpl.
  - split; [constructor | reflexivity].
  - destruct (is_space c) eqn:E.
    + rewrite IH, Forall_cons. tauto.
    + split; [discriminate|]. intros H. apply Forall_cons in H as [Hc _]. congruence.
Qed.

Lemma strip_nil_iff (cs : list ascii) :
  strip cs = [] <-> Forall (fun c => is_space c = true) cs.
Proof.
  unfold strip, rstrip. split.
  - intros H. apply (f_equal (@rev ascii)) in H. rewrite rev_involutive in H.
    simpl in H. apply lstrip_nil_iff, Forall_rev in H. rewrite rev_involutive in H.
    apply lstrip_nil_iff. destruct (lstrip cs) as [|c rest] eqn:E; [reflexivity|].
    apply Forall_cons in H as [Hc _]. apply lstrip_head in E. congruence.
  - intros H. apply lstrip_nil_iff in H. now rewrite H.
Qed.

Lemma nonblank_false_iff (cs : list ascii) :
  nonblank cs = false <-> Forall (fun c => is_space c = true) cs.
Proof.
  rewrite <- strip_nil_iff. unfold nonblank.
  destruct (strip cs); split; congruence.
Qed.

(** The first line of [splitlines] is a beginning of the text, and every
    line is a part of it. *)
Lemma splitlines_parts (cs : list ascii) :
  match splitlines cs with
  | [] => True
  | line :: _ => exists after, cs = line ++ after
  end
  /\ Forall (fun line => exists before after, cs = before ++ line ++ after)
       (splitlines cs).
Proof.
  assert (Hshift : forall (pre l : list ascii) lines,
             Forall (fun line => exists before after, l = before ++ line ++ after)
               lines ->
             Forall (fun line => exists before after,
                       pre ++ l = before ++ line ++ after) lines).
  { intros pre l lines H. eapply Forall_impl; [exact H|].
    intros line (before & after & ->). exists (pre ++ before), after.
    now rewrite <- app_assoc. }
  assert (H : forall n (l : list ascii), length l <= n ->
                match splitlines l with
                | [] => True
                | line :: _ => exists after, l = line ++ after
                end
                /\ Forall (fun line => exists before after, l = before ++ line ++ after)
                     (splitlines l)).
  { induction n as [|n IH]; intros [|c rest] Hlen; simpl in Hlen; try lia;
      try (split; [exact I | constructor]).
    cbn [splitlines]. destruct (is_line_boundary c).
    - split; [now exists (c :: rest)|].
      constructor; [now exists [], (c :: rest)|].
      destruct rest as [|c' rest'].
      + constructor.
      + destruct (Ascii.eqb c CR && Ascii.eqb c' LF).
        * apply (Hshift [c; c'] rest'). apply IH. simpl in Hlen. lia.
        * apply (Hshift [c] (c' :: rest')). apply IH. simpl in *. lia.
    - destruct (IH rest ltac:(lia)) as (Hfirst & Hall).
      destruct (splitlines rest) as [|line lines].
      + split; [now exists rest|].
        constructor; [now exists [], rest | constructor].
      + destruct Hfirst as (after & Hrest).
        split; [exists after; simpl; now f_equal|].
        apply Forall_cons in Hall as [_ Hlines].
        constructor.
        * exists [], after. simpl. now f_equal.
        * now apply (Hshift [c] rest). }
  apply (H (length cs)). lia.
Qed.

Lemma kept_lines_parts (cs : list ascii) :
  Forall (fun line => exists before after, cs = before ++ line ++ after)
    (kept_lines cs).
Proof.
  unfold kept_lines. apply Forall_map.
  pose proof (proj2 (splitlines_parts cs)) as Hall.
  apply Forall_forall. intros line Hin.
  apply list_elem_of_In, filter_In in Hin as [Hin _].
  rewrite Forall_forall in Hall.
  destruct (Hall line (proj2 (list_elem_of_In _ _) Hin)) as (before & after & ->).
  destruct (strip_spaces line) as (b & a & Hline & _).
  exists (before ++ b), (a ++ after). rewrite Hline at 1.
  now rewrite <- !app_assoc.
Qed.


(** What is not white space goes through the line pass untouched. *)
Lemma filter_spaces (p : ascii -> bool) (cs : list ascii) :
  Forall (fun c => is_space c = true) cs ->
  (forall c, is_space c = true -> p c = false) ->
  List.filter p cs = [].
Proof.
  intros Hcs Hp. induction Hcs as [|c cs Hc _ IH]; [reflexivity|].
  simpl. now rewrite (Hp c Hc).
Qed.

Lemma filter_strip (p : ascii -> bool) (cs : list ascii) :
  (forall c, is_space c = true -> p c = false) ->
  List.filter p (strip cs) = List.filter p cs.
Proof.
  intros Hp. destruct (strip_spaces cs) as (before & after & Hcs & Hb & Ha).
  rewrite Hcs at 2. rewrite !List.filter_app.
  rewrite (filter_spaces p before), (filter_spaces p after) by assumption.
  now rewrite app_nil_r.
Qed.

Lemma filter_splitlines (p : ascii -> bool) (cs : list ascii) :
  (forall c, is_space c = true -> p c = false) ->
  flat_map (List.filter p) (splitlines cs) = List.filter p cs.
Proof.
  intros Hp.
  assert (H : forall n (l : list ascii), length l <= n ->
                flat_map (List.filter p) (splitlines l) = List.filter p l).
  { induction n as [|n IH]; intros [|c rest] Hlen; simpl in Hlen; try lia;
      try reflexivity.
    cbn [splitlines]. destruct (is_line_boundary c) eqn:E.
    - cbn [flat_map List.filter app]. rewrite (Hp c (boundary_is_space c E)).
      destruct rest as [|c' rest']; [reflexivity|].
      destruct (Ascii.eqb c CR && Ascii.eqb c' LF) eqn:Ecrlf.
      + apply andb_true_iff in Ecrlf as [_ Hlf]. apply Ascii.eqb_eq in Hlf as ->.
        cbn [List.filter]. rewrite (Hp LF eq_refl). apply IH. simpl in Hlen. lia.
      + apply IH. simpl in *. lia.
    - specialize (IH rest ltac:(lia)).
      destruct (splitlines rest) as [|line lines].
      + cbn [flat_map List.filter app] in *. rewrite <- IH.
        destruct (p c); reflexivity.
      + cbn [flat_map List.filter app] in *. rewrite <- IH.
        destruct (p c); reflexivity. }
  apply (H (length cs)). lia.
Qed.

Lemma filter_join_lines (p : ascii -> bool) (lines : list (list ascii)) :
  p LF = false ->
  List.filter p (join_lines lines) = flat_map (List.filter p) lines.
Proof.
  intros Hlf. induction lines as [|line lines IH]; [reflexivity|].
  destruct lines as [|line' lines'].
  - simpl. now rewrite app_nil_r.
  - change (join_lines (line :: line' :: lines'))
      with (line ++ LF :: join_lines (line' :: lines')).
    rewrite List.filter_app. cbn [List.filter]. rewrite Hlf, IH. reflexivity.
Qed.

Lemma filter_normalize_chars (p : ascii -> bool) (cs : list ascii) :
  (forall c, is_space c = true -> p c = false) ->
  List.filter p (normalize_chars cs) = List.filter p cs.
Proof.
  intros Hp. unfold normalize_chars.
  rewrite filter_join_lines by (now apply Hp).
  rewrite <- (filter_splitlines p cs Hp).
  induction (splitlines cs) as [|line lines IH]; [reflexivity|].
  cbn [List.filter]. destruct (nonblank line) eqn:E.
  - cbn [map flat_map]. now rewrite filter_strip, IH.
  - cbn [flat_map]. rewrite IH.
    apply nonblank_false_iff in E. now rewrite (filter_spaces p line).
Qed.

(** ** The line pass, line by line *)





(** ** The sanitizer *)











(** ** Soups that the tree passes leave alone *)









(** What [clean_html] returns, as characters. *)
Lemma normalize_lines_chars (text : string) :
  list_ascii_of_string (normalize_lines text)
  = join_lines (kept_lines (list_ascii_of_string text)).
Proof. unfold normalize_lines. now rewrite list_ascii_of_string_of_list_ascii. Qed.

Section Sanitizer_properties.
Variable parse : string -> result soup_t.
Variable decode : soup_t -> string.

(** C2, as amended.  In the soup that [clean_html] prints there is no
    element called [script], [style], [meta], [footer], [header], [nav],
    [aside], [form], [iframe] or [noscript] at any depth, whatever
    [clean_attributes] is: the loop of [find_all]/[decompose] calls is the
    one traversal that deletes each such element with its whole subtree, and
    the elements and strings that remain are those of the input that lie
    neither at nor below one.  The text returned is that soup printed and
    then taken through the line pass, which only removes white space or puts
    a line feed for it: what is not white space is the same in the text as
    in the printed soup.  The statement is about the printed soup and not
    about the text, which can hold such an element: see the counterexample.
    A markup that the parser rejects makes [clean_html] raise. *)
Theorem clean_html_removes_unwanted_tags (html_content : string)
    (clean_attributes : bool) :
  match parse html_content with
  | Ok soup =>
      clean_html parse decode html_content clean_attributes
      = Ok (normalize_lines (decode (clean_soup clean_attributes soup)))
      /\ Forall (fun e => name_in (fst e) ["script"; "style"; "meta"; "footer"; "header";
              "nav"; "aside"; "form"; "iframe"; "noscript"] = false)
           (find_all (clean_soup clean_attributes soup))
      /\ remove_unwanted soup = remove_subtrees ["script"; "style"; "meta"; "footer"; "header";
              "nav"; "aside"; "form"; "iframe"; "noscript"] soup
      /\ map fst (find_all (clean_soup clean_attributes soup))
         = map fst (surviving ["script"; "style"; "meta"; "footer"; "header";
              "nav"; "aside"; "form"; "iframe"; "noscript"] soup)
      /\ strings (clean_soup clean_attributes soup)
         = surviving_strings ["script"; "style"; "meta"; "footer"; "header";
              "nav"; "aside"; "form"; "iframe"; "noscript"] soup
      /\ List.filter (fun c => negb (name_in_nat (nat_of_ascii c)
                                       [9; 10; 11; 12; 13; 28; 29; 30; 31; 32; 133; 160]))
           (list_ascii_of_string
              (normalize_lines (decode (clean_soup clean_attributes soup))))
         = List.filter (fun c => negb (name_in_nat (nat_of_ascii c)
                                         [9; 10; 11; 12; 13; 28; 29; 30; 31; 32; 133; 160]))
             (list_ascii_of_string (decode (clean_soup clean_attributes soup)))
  | Raise e => clean_html parse decode html_content clean_attributes = Raise e
  end.
Proof.
  change ["script"; "style"; "meta"; "footer"; "header";
              "nav"; "aside"; "form"; "iframe"; "noscript"] with unwanted_tags.
  unfold clean_html. destruct (parse html_content) as [soup|e]; [|reflexivity].
  split; [reflexivity|].
  rewrite find_all_clean_soup.
  assert (Hs := surviving_names unwanted_tags soup).
  repeat split.
  - destruct clean_attributes; [|exact Hs].
    apply (Forall_map_fst (fun name => name_in name unwanted_tags = false));
      [reflexivity | exact Hs].
  - apply remove_unwanted_spec.
  - destruct clean_attributes; [|reflexivity].
    rewrite map_map. reflexivity.
  - unfold clean_soup. rewrite remove_unwanted_spec.
    destruct clean_attributes;
      [rewrite strings_clean_attributes|]; apply strings_remove_subtrees.
  - rewrite normalize_lines_chars. apply filter_normalize_chars.
    intros c Hc. unfold is_space in Hc. now rewrite Hc.
Qed.



End Sanitizer_properties.



(** C2, counterexample.  [<p>a</p><script\x1c>alert(1)] holds no [script]
    element: the second element is called [script\x1c].  Printed, its name is
    cut at the file separator by [splitlines], and the text returned,
    [<p>a</p><script\n>alert(1)</script\n>], holds a [script] element. *)
Lemma clean_html_output_holds_script :
  Bs4.BeautifulSoup fs_markup
  = Ok [Tag "p" [] [NavigableString PlainText "a"];
        Tag ("script" +:+ FS) [] [NavigableString PlainText "alert(1)"]]
  /\ clean_html Bs4.BeautifulSoup Bs4.decode fs_markup true = Ok fs_cleaned
  /\ clean_html Bs4.BeautifulSoup Bs4.decode fs_markup false = Ok fs_cleaned
  /\ Bs4.BeautifulSoup fs_cleaned
     = Ok [Tag "p" [] [NavigableString PlainText "a"];
           Tag "script" [] [NavigableString PlainText "alert(1)"]].
Proof. repeat split; vm_compute; reflexivity. Qed.



(** C1.  On the scenario document the anchor keeps [onclick], which the
    attribute rule of the specification drops: the test on line 77 sends
    anchors and images past the branches written for them. *)
Theorem clean_html_scenario_keeps_onclick :
  Bs4.BeautifulSoup scenario_markup = Ok scenario_soup
  /\ clean_html Bs4.BeautifulSoup Bs4.decode scenario_markup true = Ok scenario_cleaned
  /\ find_all (clean_soup true scenario_soup)
     = [("html", []); ("a", [("href", "/a"); ("onclick", "y")])]
  /\ spec_element_attrs "a" [("href", "/a"); ("onclick", "y")] = [("href", "/a")]
  /\ clean_element_attrs "a" [("href", "/a"); ("onclick", "y")]
     <> spec_element_attrs "a" [("href", "/a"); ("onclick", "y")].
Proof. repeat split; try (vm_compute; reflexivity). discriminate. Qed.

(** ** Links *)











(** ** The fetcher *)

Lemma string_length_append (s1 s2 : string) :
  String.length (s1 +:+ s2) = String.length s1 + String.length s2.
Proof. induction s1 as [|c s1 IH]; simpl; [reflexivity | now rewrite IH]. Qed.

Lemma string_length_substring (m : nat) (s : string) :
  m <= String.length s -> String.length (String.substring 0 m s) = m.
Proof.
  revert s. induction m as [|m IH]; intros [|c s] Hlen; simpl in *;
    try reflexivity; try lia.
  rewrite IH; [reflexivity | lia].
Qed.

Lemma substring_prefix (m : nat) (s : string) :
  m <= String.length s -> exists tail, s = String.substring 0 m s +:+ tail.
Proof.
  revert s. induction m as [|m IH]; intros [|c s] Hlen; simpl in Hlen; try lia.
  - now exists "".
  - now exists (String c s).
  - destruct (IH s) as (tail & Htail); [lia|]. exists tail.
    change (String c s = String c (String.substring 0 m s +:+ tail)).
    now rewrite <- Htail.
Qed.

Lemma excerpt_long (link_content : string) :
  500 < String.length link_content ->
  excerpt link_content = String.substring 0 500 link_content +:+ "...".
Proof.
  intros H. unfold excerpt.
  destruct (Nat.ltb_spec 500 (String.length link_content)); [reflexivity | lia].
Qed.

Lemma excerpt_short (link_content : string) :
  String.length link_content <= 500 -> excerpt link_content = link_content.
Proof.
  intros H. unfold excerpt.
  destruct (Nat.ltb_spec 500 (String.length link_content)); [lia | reflexivity].
Qed.

Section Effects_properties.
Context {St : Type}.

Lemma ends_with_ret {A} (R : St -> St -> Prop) (a : A) :
  (forall s, R s s) -> ends_with R (ret a).
Proof. intros Hrefl s. apply Hrefl. Qed.

Lemma ends_with_bind {A A'} (R : St -> St -> Prop) (m : M St A) (k : A -> M St A') :
  (forall s1 s2 s3, R s1 s2 -> R s2 s3 -> R s1 s3) ->
  ends_with R m -> (forall a, ends_with R (k a)) -> ends_with R (bind m k).
Proof.
  intros Htrans Hm Hk s. unfold bind. specialize (Hm s).
  destruct (m s) as [a s'|e s'|]; [|exact Hm|exact I].
  specialize (Hk a s'). destruct (k a s') as [a' s''|e s''|]; eauto.
Qed.

Lemma ends_with_of_result {A} (R : St -> St -> Prop) (r : result A) :
  (forall s, R s s) -> ends_with R (of_result r).
Proof. intros Hrefl s. unfold of_result. destruct r; apply Hrefl. Qed.
End Effects_properties.

Section Fetcher_properties.
Variable Br : Browser.
Variable parse : string -> result soup_t.
Variable decode : soup_t -> string.

Lemma unchanged_refl (s : state Br) : unchanged s s.
Proof. repeat split. Qed.

Lemma unchanged_trans (s1 s2 s3 : state Br) :
  unchanged s1 s2 -> unchanged s2 s3 -> unchanged s1 s3.
Proof. unfold unchanged. intuition congruence. Qed.

Lemma unchanged_call {A} (op : World Br -> result A * World Br) :
  ends_with unchanged (call Br op).
Proof.
  intros s. unfold call. destruct (op (world s)) as [[a|e] w]; repeat split.
Qed.

Lemma unchanged_sleep (seconds : nat) : ends_with unchanged (sleep Br seconds).
Proof. intros s. repeat split. Qed.

Lemma unchanged_get_url (url : string) : ends_with unchanged (get_url Br url).
Proof.
  intros s. unfold get_url, call. simpl.
  destruct (driver_get Br url (world s)) as [[a|e] w]; repeat split.
Qed.

Lemma unchanged_scroll_loop (fuel : nat) (last_height : Z) :
  ends_with unchanged (scroll_loop Br fuel last_height).
Proof.
  revert last_height. induction fuel as [|fuel IH]; intros last_height.
  - intros s. exact I.
  - simpl. apply ends_with_bind; [apply unchanged_trans | apply unchanged_call |].
    intros _. apply ends_with_bind; [apply unchanged_trans | apply unchanged_sleep |].
    intros _. apply ends_with_bind; [apply unchanged_trans | apply unchanged_call |].
    intros new_height. destruct (new_height =? last_height)%Z.
    + apply ends_with_ret, unchanged_refl.
    + apply IH.
Qed.

Lemma unchanged_after_setup (fuel : nat) (url : string) :
  ends_with unchanged (after_setup Br parse decode fuel url).
Proof.
  unfold after_setup, scroll_page.
  repeat first
    [ apply ends_with_bind; [apply unchanged_trans | | intros ?]
    | apply unchanged_get_url | apply unchanged_call | apply unchanged_scroll_loop
    | apply ends_with_of_result, unchanged_refl
    | apply ends_with_ret, unchanged_refl ].
Qed.

Lemma primary_eq (fuel : nat) (url : string) :
  primary Br parse decode fuel url
  = bind (setup_selenium Br) (fun _ => after_setup Br parse decode fuel url).
Proof. reflexivity. Qed.

(** Where the primary part can end when it starts without a session. *)
Lemma primary_from_initial (fuel : nat) (url : string) (w : World Br) :
  match primary Br parse decode fuel url (initial Br w) with
  | Returned _ s1 =>
      driver_bound s1 = true /\ session_open s1 = true
      /\ quit_calls s1 = 0 /\ errors s1 = []
  | Raised _ s1 =>
      session_open s1 = driver_bound s1 /\ quit_calls s1 = 0 /\ errors s1 = []
  | OutOfFuel => True
  end.
Proof.
  rewrite primary_eq. unfold bind at 1, setup_selenium. simpl.
  destruct (webdriver_Chrome Br w) as [[[]|e] w']; [|repeat split].
  match goal with |- context [after_setup Br parse decode fuel url ?s] =>
    pose proof (unchanged_after_setup fuel url s) as H;
    destruct (after_setup Br parse decode fuel url s) as [r s1|e s1|]
  end; [| |exact I]; destruct H as (Hb & Ho & Hq & He); simpl in *;
    rewrite ?Hb, ?Ho, ?Hq, ?He; repeat split.
Qed.








Lemma successes_app (rs1 rs2 : list link_result) :
  successes (rs1 ++ rs2) = successes rs1 ++ successes rs2.
Proof. apply flat_map_app. Qed.

Lemma failures_app (rs1 rs2 : list link_result) :
  failures (rs1 ++ rs2) = failures rs1 ++ failures rs2.
Proof. apply flat_map_app. Qed.

Lemma successes_failures_length (rs : list link_result) :
  length (successes rs) + length (failures rs) = length rs.
Proof.
  induction rs as [|[d|f] rs IH]; simpl; [reflexivity | lia | lia].
Qed.




(** One link: the run of [scrape_link] is what [fetch_link] reads off the
    browser. *)
Lemma scrape_link_run (link : string) (s : state Br) :
  scrape_link Br parse decode link s
  = Returned (successes [fst (fetch_link Br parse decode link (world s))])
      (after_links s [link] [fst (fetch_link Br parse decode link (world s))]
         (snd (fetch_link Br parse decode link (world s)))).
Proof.
  unfold scrape_link, fetch_link, after_links, try_except, bind, get_url, call,
    sleep, st_error, modify, of_result, ret.
  cbn [world driver_bound session_open quit_calls visited errors with_world].
  destruct (driver_get Br link (world s)) as [[[]|e] w1];
    cbn [world driver_bound session_open quit_calls visited errors with_world
         fst snd]; [|reflexivity].
  destruct (driver_page_source Br (time_sleep Br 2 w1)) as [[page_source|e] w2];
    cbn [world driver_bound session_open quit_calls visited errors with_world
         fst snd]; [|reflexivity].
  destruct (clean_html parse decode page_source true) as [link_content|e];
    cbn [world driver_bound session_open quit_calls visited errors with_world
         fst snd]; [|reflexivity].
  cbn [failures successes flat_map map app]. now rewrite app_nil_r.
Qed.

Lemma after_links_nil (s : state Br) : after_links s [] [] (world s) = s.
Proof. destruct s. unfold after_links. simpl. now rewrite !app_nil_r. Qed.

Lemma after_links_cons (s : state Br) (link : string) (links : list string)
    (r : link_result) (rs : list link_result) (w1 w2 : World Br) :
  after_links (after_links s [link] [r] w1) links rs w2
  = after_links s (link :: links) (r :: rs) w2.
Proof.
  unfold after_links. cbn [world driver_bound session_open quit_calls visited errors].
  change (r :: rs) with ([r] ++ rs).
  now rewrite failures_app, map_app, <- !app_assoc.
Qed.

(** The loop: the run of [scrape_links] is what [fetch_links] reads off the
    browser. *)
Lemma scrape_links_run (links : list string) (links_data : list link_data)
    (s : state Br) :
  scrape_links Br parse decode links links_data s
  = Returned (links_data ++ successes (fst (fetch_links Br parse decode links (world s))))
      (after_links s links (fst (fetch_links Br parse decode links (world s)))
         (snd (fetch_links Br parse decode links (world s)))).
Proof.
  revert links_data s. induction links as [|link links IH]; intros links_data s.
  - cbn [scrape_links fetch_links fst snd successes flat_map]. unfold ret.
    now rewrite app_nil_r, after_links_nil.
  - cbn [scrape_links fetch_links]. unfold bind. rewrite scrape_link_run, IH.
    cbn [world after_links].
    destruct (fetch_link Br parse decode link (world s)) as [r w1].
    cbn [fst snd].
    destruct (fetch_links Br parse decode links w1) as [rs w2].
    cbn [fst snd]. rewrite after_links_cons.
    change (r :: rs) with ([r] ++ rs).
    now rewrite successes_app, <- app_assoc.
Qed.

Lemma fetch_links_links (links : list string) (w : World Br) :
  map result_link (fst (fetch_links Br parse decode links w)) = links.
Proof.
  revert w. induction links as [|link links IH]; intros w; [reflexivity|].
  cbn [fetch_links]. specialize (IH (snd (fetch_link Br parse decode link w))).
  assert (Hlink : result_link (fst (fetch_link Br parse decode link w)) = link).
  { unfold fetch_link.
    destruct (driver_get Br link w) as [[[]|e] w1]; [|reflexivity].
    destruct (driver_page_source Br (time_sleep Br 2 w1)) as [[page_source|e] w2];
      [|reflexivity].
    destruct (clean_html parse decode page_source true); reflexivity. }
  destruct (fetch_link Br parse decode link w) as [r w1]. cbn [fst snd] in *.
  destruct (fetch_links Br parse decode links w1) as [rs w2]. cbn [fst snd] in *.
  cbn [map]. now rewrite Hlink, IH.
Qed.

Lemma successes_urls_all (rs : list link_result) :
  failures rs = [] -> map ld_url (successes rs) = map result_link rs.
Proof.
  induction rs as [|[d|f] rs IH]; intros Hnone; [reflexivity | | discriminate].
  change (ld_url d :: map ld_url (successes rs) = ld_url d :: map result_link rs).
  f_equal. now apply IH.
Qed.

(** With one failure, the entries are those of the other links, in order. *)
Lemma successes_urls_one_failure (rs : list link_result) (f : failed_link) :
  failures rs = [f] ->
  exists before after,
    map result_link rs = before ++ fst f :: after
    /\ map ld_url (successes rs) = before ++ after.
Proof.
  induction rs as [|[d|f'] rs IH]; intros Hone; [discriminate| |].
  - destruct (IH Hone) as (before & after & Hlinks & Hurls).
    exists (ld_url d :: before), after. split.
    + change (ld_url d :: map result_link rs
              = ld_url d :: (before ++ fst f :: after)).
      now rewrite Hlinks.
    + change (ld_url d :: map ld_url (successes rs) = ld_url d :: (before ++ after)).
      now rewrite Hurls.
  - change (f' :: failures rs = [f]) in Hone. injection Hone as -> Hnone.
    exists [], (map result_link rs). split; [reflexivity|].
    change (map ld_url (successes rs) = map result_link rs).
    now apply successes_urls_all.
Qed.

(** C6.  The loop over the links fetches every link, in order, from the
    world the link before it left, whatever became of that one.  A link
    whose navigation, capture or sanitizing raises gets no entry, and its
    exception is passed to [st.error] with the link; a link for which all
    three succeed gets its entry.  The loop itself always returns: the
    entries are those of the links that succeeded, in order, and the
    messages those of the links that failed.  With exactly one failure the
    entries are those of all the other links, so with five links there are
    four.  The sequence that [scrape_url] returns is the one of this loop on
    the first [max_links] extracted links. *)
Theorem scrape_links_isolates_failures (links : list string)
    (links_data : list link_data) (s : state Br)
    (fuel : nat) (url : string) (max_links : Z) (w : World Br) :
  match fetch_links Br parse decode links (world s) with
  | (outcomes, w') =>
      scrape_links Br parse decode links links_data s
      = Returned (links_data ++ successes outcomes)
          {| world := w'; driver_bound := driver_bound s;
             session_open := session_open s; quit_calls := quit_calls s;
             visited := visited s ++ links;
             errors := errors s
                       ++ map (fun f => "Error scraping link " +:+ fst f
                                        +:+ ": " +:+ snd f)
                            (failures outcomes) |}
      /\ map result_link outcomes = links
      /\ length (successes outcomes) + length (failures outcomes) = length links
      /\ (forall f, failures outcomes = [f] ->
            exists before after,
              links = before ++ fst f :: after
              /\ map ld_url (successes outcomes) = before ++ after)
      /\ (length links = 5 -> length (failures outcomes) = 1 ->
          length (successes outcomes) = 4)
  end
  /\ (forall link w0,
        match driver_get Br link w0 with
        | (Raise e, w1) =>
            fetch_link Br parse decode link w0 = (inr (link, e), w1)
        | (Ok _, w1) =>
            match driver_page_source Br (time_sleep Br 2 w1) with
            | (Raise e, w2) =>
                fetch_link Br parse decode link w0 = (inr (link, e), w2)
            | (Ok page_source, w2) =>
                match clean_html parse decode page_source true with
                | Raise e =>
                    fetch_link Br parse decode link w0 = (inr (link, e), w2)
                | Ok link_content =>
                    fetch_link Br parse decode link w0
                    = (inl {| ld_url := link;
                              ld_content := excerpt link_content |}, w2)
                end
            end
        end)
  /\ (forall link rest w0,
        fetch_links Br parse decode (link :: rest) w0
        = (fst (fetch_link Br parse decode link w0)
           :: fst (fetch_links Br parse decode rest
                     (snd (fetch_link Br parse decode link w0))),
           snd (fetch_links Br parse decode rest
                  (snd (fetch_link Br parse decode link w0)))))
  /\ match primary Br parse decode fuel url (initial Br w) with
     | Returned r s1 =>
         exists s2,
           scrape_url Br parse decode fuel url true max_links w
           = Returned
               (Some (snd r),
                successes
                  (fst (fetch_links Br parse decode
                          (slice_to (extract_links (fst r) url) max_links)
                          (world s1))))
               s2
           /\ errors s2
              = map (fun f => "Error scraping link " +:+ fst f +:+ ": " +:+ snd f)
                  (failures
                     (fst (fetch_links Br parse decode
                             (slice_to (extract_links (fst r) url) max_links)
                             (world s1))))
     | _ => True
     end.
Proof.
  split; [|split; [|split]].
  - pose proof (scrape_links_run links links_data s) as Hrun.
    pose proof (fetch_links_links links (world s)) as Hlinks.
    destruct (fetch_links Br parse decode links (world s)) as [outcomes w'].
    cbn [fst snd] in Hrun, Hlinks.
    pose proof (successes_failures_length outcomes) as Hlen.
    assert (Hsame : length outcomes = length links)
      by (rewrite <- Hlinks; now rewrite length_map).
    split; [exact Hrun|]. split; [exact Hlinks|]. split; [lia|].
    split; [|lia].
    intros f Hone. rewrite <- Hlinks. now apply successes_urls_one_failure.
  - intros link w0. unfold fetch_link.
    destruct (driver_get Br link w0) as [[[]|e] w1]; [|reflexivity].
    destruct (driver_page_source Br (time_sleep Br 2 w1)) as [[page_source|e] w2];
      [|reflexivity].
    destruct (clean_html parse decode page_source true); reflexivity.
  - intros link rest w0. cbn [fetch_links].
    destruct (fetch_link Br parse decode link w0) as [r w1]. cbn [fst snd].
    now destruct (fetch_links Br parse decode rest w1).
  - pose proof (primary_from_initial fuel url w) as Hprimary.
    unfold scrape_url, try_finally, try_except. unfold bind at 1.
    destruct (primary Br parse decode fuel url (initial Br w)) as [r s1|e s1|];
      [|exact I|exact I].
    destruct Hprimary as (Hb & Ho & Hq & He).
    unfold secondary, bind. rewrite scrape_links_run.
    unfold modify, ret. eexists. split; [reflexivity|].
    unfold release, quit, after_links.
    cbn [world driver_bound session_open quit_calls visited errors].
    rewrite Hb. cbn [world driver_bound session_open quit_calls visited errors].
    now rewrite He.
Qed.

(** C7.  When a link's navigation and capture succeed and its page
    sanitizes to [link_content], the entry recorded for the link holds the
    link and the excerpt of that very content: for a content of more than
    500 characters its first 500 characters followed by three dots, 503
    characters in all; for a content of 500 characters or fewer the content
    itself.  Nothing is reported for the link, and the entry is in what the
    loop returns. *)
Theorem excerpt_truncates_at_500 (link : string) (rest : list string)
    (links_data : list link_data) (s : state Br) (w1 w2 : World Br)
    (page_source link_content : string) :
  driver_get Br link (world s) = (Ok tt, w1) ->
  driver_page_source Br (time_sleep Br 2 w1) = (Ok page_source, w2) ->
  clean_html parse decode page_source true = Ok link_content ->
  exists recorded s',
    scrape_link Br parse decode link s
    = Returned [{| ld_url := link; ld_content := recorded |}] s'
    /\ world s' = w2
    /\ errors s' = errors s
    /\ (500 < String.length link_content ->
        recorded = String.substring 0 500 link_content +:+ "..."
        /\ String.length (String.substring 0 500 link_content) = 500
        /\ (exists tail,
              link_content = String.substring 0 500 link_content +:+ tail)
        /\ String.length recorded = 503)
    /\ (String.length link_content <= 500 -> recorded = link_content)
    /\ exists more s'',
         scrape_links Br parse decode (link :: rest) links_data s
         = Returned (links_data ++ {| ld_url := link; ld_content := recorded |} :: more)
             s''.
Proof.
  intros Hget Hsource Hclean.
  assert (Hfetch : fetch_link Br parse decode link (world s)
                   = (inl {| ld_url := link; ld_content := excerpt link_content |},
                      w2)).
  { unfold fetch_link. now rewrite Hget, Hsource, Hclean. }
  exists (excerpt link_content). eexists.
  split; [rewrite scrape_link_run, Hfetch; reflexivity|].
  split; [reflexivity|].
  split; [cbn; now rewrite app_nil_r|].
  split; [|split].
  - intros Hlong. rewrite excerpt_long by assumption.
    rewrite string_length_append, string_length_substring by lia.
    repeat split. apply substring_prefix. lia.
  - apply excerpt_short.
  - cbn [scrape_links]. unfold bind. rewrite scrape_link_run, Hfetch.
    cbn [fst snd successes flat_map app]. rewrite scrape_links_run.
    eexists _, _. rewrite <- app_assoc. reflexivity.
Qed.

End Fetcher_properties.


(** C6, witness: five links, the third of which cannot be reached; the
    entries are those of the other four, and the failure is reported. *)
Lemma scrape_links_isolates_failures_witness :
  exists links_data s',
    scrape_links sample_browser Bs4.BeautifulSoup Bs4.decode five_links []
      (initial sample_browser sample_start)
    = Returned links_data s'
    /\ map ld_url links_data
       = ["https://example.com/1"; "https://example.com/2";
          "https://example.com/4"; "https://example.com/5"]
    /\ errors s'
       = ["Error scraping link https://example.com/3: net::ERR_CONNECTION_REFUSED"].
Proof.
  pose proof (proj1 (scrape_links_isolates_failures sample_browser Bs4.BeautifulSoup
                       Bs4.decode five_links [] (initial sample_browser sample_start)
                       0 "" 0%Z sample_start)) as H.
  destruct (fetch_links sample_browser Bs4.BeautifulSoup Bs4.decode five_links
              (world (initial sample_browser sample_start)))
    as [outcomes w'] eqn:Houtcomes.
  destruct H as (Hrun & _).
  vm_compute in Houtcomes. injection Houtcomes as <- <-.
  eexists _, _. split; [exact Hrun|]. split; reflexivity.
Defined.

(** C7, witness: a linked page of 607 characters; its entry has 503. *)
Lemma excerpt_truncates_at_500_witness :
  exists recorded s',
    scrape_link sample_browser Bs4.BeautifulSoup Bs4.decode
      "https://example.com/long" (initial sample_browser sample_start)
    = Returned [{| ld_url := "https://example.com/long"; ld_content := recorded |}] s'
    /\ recorded = String.substring 0 500 ("<p>" +:+ long_text +:+ "</p>") +:+ "..."
    /\ String.length recorded = 503.
Proof.
  destruct (excerpt_truncates_at_500 sample_browser Bs4.BeautifulSoup Bs4.decode
              "https://example.com/long" [] [] (initial sample_browser sample_start)
              {| dead := ["https://example.com/3"];
                 location := "https://example.com/long" |}
              {| dead := ["https://example.com/3"];
                 location := "https://example.com/long" |}
              ("<p>" +:+ long_text +:+ "</p>") ("<p>" +:+ long_text +:+ "</p>")
              eq_refl eq_refl)
    as (recorded & s' & Hrun & _ & _ & Hlong & _).
  { vm_compute. reflexivity. }
  exists recorded, s'. split; [exact Hrun|].
  assert (H500 : 500 < String.length ("<p>" +:+ long_text +:+ "</p>"))
    by (apply Nat.ltb_lt; vm_compute; reflexivity).
  destruct (Hlong H500) as (Hrec & _ & _ & Hlen). split; assumption.
Defined.

(** ** The analysis client *)

(** C8.  [single_shot_completion] calls [generate_content] once.  When the
    call raises, or reading [response.text] raises, the exception is logged
    and raised again.  When the response has a text, that text is returned
    (the empty string when the text is empty); when it has no [text]
    attribute, the empty string is returned.  [analyze_html_content] is
    [single_shot_completion] on its two prompts at temperature 0.7. *)
Theorem single_shot_completion_result (Md : Model)
    (system_prompt content_prompt html_content : string) (temperature : Q)
    (s : analysis_state Md) :
  match generate_content Md (format_prompt system_prompt content_prompt)
          temperature (model_world s) with
  | (Ok r, _) =>
      match response_text r with
      | TextIs value =>
          exists s',
            single_shot_completion Md system_prompt content_prompt temperature s
            = Returned value s'
            /\ generate_calls s' = S (generate_calls s)
      | TextAbsent =>
          exists s',
            single_shot_completion Md system_prompt content_prompt temperature s
            = Returned "" s'
            /\ generate_calls s' = S (generate_calls s)
      | TextFails e =>
          exists s',
            single_shot_completion Md system_prompt content_prompt temperature s
            = Raised e s'
            /\ generate_calls s' = S (generate_calls s)
            /\ last (log s') = Some (Error ("API request failed: " +:+ e))
      end
  | (Raise e, _) =>
      exists s',
        single_shot_completion Md system_prompt content_prompt temperature s
        = Raised e s'
        /\ generate_calls s' = S (generate_calls s)
        /\ last (log s') = Some (Error ("API request failed: " +:+ e))
  end
  /\ analyze_html_content Md html_content s
     = single_shot_completion Md analysis_system_prompt
         (analysis_content_prompt html_content) analysis_temperature s.
Proof.
  split; [|reflexivity].
  unfold single_shot_completion, try_except, bind, model_generate_content,
    read_text, logger, modify, ret, raise.
  cbn [model_world generate_calls log].
  destruct (generate_content Md (format_prompt system_prompt content_prompt)
              temperature (model_world s)) as [[r|e] w].
  - destruct (response_text r) as [|e|value].
    + eexists. split; [reflexivity|]. reflexivity.
    + eexists. split; [reflexivity|]. split; [reflexivity|]. apply last_snoc.
    + destruct value as [|c value]; eexists; (split; [reflexivity|]); reflexivity.
  - eexists. split; [reflexivity|]. split; [reflexivity|]. apply last_snoc.
Qed.
